(** * Sharpe-ratio notebook: a shallow embedding and its properties

    The program is a linear pandas script.  Each module-level assignment of
    the script that takes part in the computation is a definition below,
    under the name the script gives it.  The pandas operations the script
    calls ([dropna], [pct_change], [sub] with [axis=0], [mean], [std],
    [div], [mul]) are written out as the list functions they perform.

    Numbers.  The script computes on IEEE doubles.  The tables are
    modelled on values [f64] that keep the special values of that
    arithmetic (not-a-number, the two infinities) and take the finite
    values as real numbers: rounding, overflow and underflow are
    abstracted, and a finite zero used as a divisor is the positive zero.
    What is stated on [f64] is the structure of the computation and the
    behaviour of the special values.  Where the last bits of a double
    decide, the same statements of the script are run on binary64 itself
    (module [B64], on the kernel's floating-point numbers). *)

From Stdlib Require Import PrimFloat FloatOps FloatAxioms FloatLemmas SpecFloat.
From Stdlib Require Import String Reals Lra Lia ZArith Bool List Permutation.
Import ListNotations.

Local Open Scope R_scope.

(** ** Double values with their special cases *)

Inductive f64 : Type :=
| NaN : f64
| PInf : f64
| NInf : f64
| Num (r : R).

Definition isna (x : f64) : bool :=
  match x with NaN => true | _ => false end.

Definition notna (x : f64) : bool := negb (isna x).

Definition Rsign (r : R) : comparison :=
  match total_order_T r 0 with
  | inleft (left _) => Lt
  | inleft (right _) => Eq
  | inright _ => Gt
  end.

Definition inf (positive : bool) : f64 := if positive then PInf else NInf.

Definition neg (x : f64) : f64 :=
  match x with
  | NaN => NaN
  | PInf => NInf
  | NInf => PInf
  | Num a => Num (- a)
  end.

Definition add (x y : f64) : f64 :=
  match x, y with
  | NaN, _ | _, NaN => NaN
  | PInf, NInf | NInf, PInf => NaN
  | PInf, _ | _, PInf => PInf
  | NInf, _ | _, NInf => NInf
  | Num a, Num b => Num (a + b)
  end.

Definition sub (x y : f64) : f64 := add x (neg y).

(** An infinity times a finite value: the sign rule, and not-a-number
    when the finite value is zero. *)
Definition scale_inf (positive : bool) (r : R) : f64 :=
  match Rsign r with
  | Eq => NaN
  | Gt => inf positive
  | Lt => inf (negb positive)
  end.

Definition mul (x y : f64) : f64 :=
  match x, y with
  | NaN, _ | _, NaN => NaN
  | PInf, PInf | NInf, NInf => PInf
  | PInf, NInf | NInf, PInf => NInf
  | PInf, Num b => scale_inf true b
  | NInf, Num b => scale_inf false b
  | Num a, PInf => scale_inf true a
  | Num a, NInf => scale_inf false a
  | Num a, Num b => Num (a * b)
  end.

(** Division never raises: pandas and numpy return not-a-number for 0/0
    and inf/inf, and an infinity for a non-zero value over zero. *)
Definition div (x y : f64) : f64 :=
  match x, y with
  | NaN, _ | _, NaN => NaN
  | PInf, PInf | PInf, NInf | NInf, PInf | NInf, NInf => NaN
  | PInf, Num b => match Rsign b with Lt => NInf | _ => PInf end
  | NInf, Num b => match Rsign b with Lt => PInf | _ => NInf end
  | Num _, PInf | Num _, NInf => Num 0
  | Num a, Num b =>
      match Rsign b with
      | Eq => match Rsign a with Eq => NaN | Gt => PInf | Lt => NInf end
      | _ => Num (a / b)
      end
  end.

Definition fsqrt (x : f64) : f64 :=
  match x with
  | NaN | NInf => NaN
  | PInf => PInf
  | Num a => match Rsign a with Lt => NaN | _ => Num (sqrt a) end
  end.

(** ** Tables

    [read_csv] with [index_col=['Date']] gives a table whose rows are
    labelled by dates and keep the order of the file.  A missing field of
    the file is the value [NaN]. *)

Definition date := Z.

Record DataFrame : Type := mkFrame {
  columns : list string;
  rows : list (date * list f64)
}.

Definition Series := list (date * f64).

(** A row of statistics, one value per column label. *)
Definition Labelled := list (string * f64).

Definition index (df : DataFrame) : list date := map fst (rows df).

Definition values (df : DataFrame) : list (list f64) := map snd (rows df).

Definition column (j : nat) (df : DataFrame) : list f64 :=
  map (fun r => nth j (snd r) NaN) (rows df).

Fixpoint map2 {A B C : Type} (f : A -> B -> C) (l : list A) (m : list B)
  : list C :=
  match l, m with
  | a :: l', b :: m' => f a b :: map2 f l' m'
  | _, _ => []
  end.

(** [DataFrame.dropna()]: a row is kept when none of its fields is missing. *)
Definition dropna (df : DataFrame) : DataFrame :=
  mkFrame (columns df) (filter (fun r => forallb notna (snd r)) (rows df)).

(** [df['name']]: the column under a label, as a series over the same
    index; [None] is the [KeyError] of a label that is not there. *)
Fixpoint position (name : string) (names : list string) : option nat :=
  match names with
  | [] => None
  | n :: rest =>
      if String.eqb n name then Some 0%nat
      else option_map S (position name rest)
  end.

Definition getitem (df : DataFrame) (name : string) : option Series :=
  match position name (columns df) with
  | Some j => Some (map (fun r => (fst r, nth j (snd r) NaN)) (rows df))
  | None => None
  end.

(** ** pct_change

    pandas computes [data / data.shift(1) - 1]: [shift(1)] moves every
    value one row down and puts a missing value in the first row.  (The
    forward fill pandas does first changes nothing here: [dropna] left no
    missing value.) *)

Definition shift {A : Type} (fill : A) (l : list A) : list A :=
  firstn (length l) (fill :: l).

Definition pct (x prev : f64) : f64 := sub (div x prev) (Num 1).

Definition pct_change_values (xs : list f64) : list f64 :=
  map2 pct xs (shift NaN xs).

Definition pct_change_series (s : Series) : Series :=
  combine (map fst s) (pct_change_values (map snd s)).

Definition nan_row (df : DataFrame) : list f64 :=
  map (fun _ => NaN) (columns df).

Definition pct_change (df : DataFrame) : DataFrame :=
  mkFrame (columns df)
    (combine (index df)
       (map2 (map2 pct) (values df) (shift (nan_row df) (values df)))).

(** ** Subtraction of a series along the rows ([axis=0])

    The two indexes are aligned first.  Equal indexes are used as they
    are; otherwise the result is indexed by the sorted union of the dates,
    and a date that one side lacks reads as missing on that side.  An
    index is the Date column of a price file and is taken to hold each
    date once; [lookup] reads the first row of a date. *)

Fixpoint insert_date (d : date) (l : list date) : list date :=
  match l with
  | [] => [d]
  | e :: l' => if (d <=? e)%Z then d :: l else e :: insert_date d l'
  end.

Definition sort_dates (l : list date) : list date :=
  fold_right insert_date [] l.

Definition union_index (l r : list date) : list date :=
  sort_dates (nodup Z.eq_dec (l ++ r)).

Fixpoint lookup {A : Type} (d : date) (l : list (date * A)) : option A :=
  match l with
  | [] => None
  | (e, a) :: l' => if (e =? d)%Z then Some a else lookup d l'
  end.

Fixpoint same_index (l r : list date) : bool :=
  match l, r with
  | [], [] => true
  | d :: l', e :: r' => (d =? e)%Z && same_index l' r'
  | _, _ => false
  end.

Definition sub_row (row : list f64) (b : f64) : list f64 :=
  map (fun x => sub x b) row.

Definition sub_axis0 (df : DataFrame) (s : Series) : DataFrame :=
  if same_index (index df) (map fst s) then
    mkFrame (columns df)
      (map2 (fun r b => (fst r, sub_row (snd r) (snd b))) (rows df) s)
  else
    mkFrame (columns df)
      (map (fun d =>
              (d, sub_row
                    (match lookup d (rows df) with
                     | Some row => row
                     | None => nan_row df
                     end)
                    (match lookup d s with
                     | Some b => b
                     | None => NaN
                     end)))
         (union_index (index df) (map fst s))).

(** ** Reductions that skip missing values (pandas.core.nanops) *)

Definition fill0 (xs : list f64) : list f64 :=
  map (fun x => if isna x then Num 0 else x) xs.

Definition fsum (xs : list f64) : f64 := fold_left add xs (Num 0).

Definition count (xs : list f64) : nat := length (filter notna xs).

(** [nanmean]: the sum of the values that are there over their number,
    and a missing value when there is none. *)
Definition nanmean (xs : list f64) : f64 :=
  match count xs with
  | O => NaN
  | n => div (fsum (fill0 xs)) (Num (INR n))
  end.

(** [nanvar] with a number [ddof] of lost degrees of freedom: with no
    more than [ddof] values the result is missing; otherwise the squared
    distances to the average, zero at the missing places, are summed and
    divided by [count - ddof]. *)
Definition nanvar (ddof : nat) (xs : list f64) : f64 :=
  let n := count xs in
  if (n <=? ddof)%nat then NaN
  else
    let avg := div (fsum (fill0 xs)) (Num (INR n)) in
    let sqr :=
      map (fun x => if isna x then Num 0
                    else mul (sub avg x) (sub avg x)) xs in
    div (fsum sqr) (Num (INR n - INR ddof)).

Definition nanstd (ddof : nat) (xs : list f64) : f64 :=
  fsqrt (nanvar ddof xs).

(** [DataFrame.mean()] and [DataFrame.std()] reduce every column; [std]
    is called without argument, so [ddof] has its default, 1. *)
Definition reduce_columns (f : list f64 -> f64) (df : DataFrame) : Labelled :=
  map (fun jn => (snd jn, f (column (fst jn) df)))
      (combine (seq 0 (length (columns df))) (columns df)).

Definition frame_mean (df : DataFrame) : Labelled := reduce_columns nanmean df.

Definition frame_std (df : DataFrame) : Labelled :=
  reduce_columns (nanstd 1) df.

(** [Series.div] and [Series.mul] on statistics that carry the same
    labels in the same order. *)
Definition labelled_div (a b : Labelled) : Labelled :=
  map2 (fun x y => (fst x, div (snd x) (snd y))) a b.

Definition labelled_mul (a : Labelled) (k : f64) : Labelled :=
  map (fun x => (fst x, mul (snd x) k)) a.

(** ** The script *)

Definition stock_data (csv : DataFrame) : DataFrame := dropna csv.

Definition benchmark_data (csv : DataFrame) : DataFrame := dropna csv.

Definition stock_returns (sd : DataFrame) : DataFrame := pct_change sd.

Definition sp_returns (bd : DataFrame) : option Series :=
  option_map pct_change_series (getitem bd "S&P 500").

Definition excess_returns (sr : DataFrame) (sp : Series) : DataFrame :=
  sub_axis0 sr sp.

Definition avg_excess_return (er : DataFrame) : Labelled := frame_mean er.

Definition sd_excess_return (er : DataFrame) : Labelled := frame_std er.

Definition daily_sharpe_ratio (er : DataFrame) : Labelled :=
  labelled_div (avg_excess_return er) (sd_excess_return er).

Definition annual_factor : f64 := fsqrt (Num 252).

Definition annual_sharpe_ratio (er : DataFrame) : Labelled :=
  labelled_mul (daily_sharpe_ratio er) annual_factor.

(** The run from the two tables as read: up to the table of excess
    returns, and from there to the annualized ratios.  [None] is the
    [KeyError] of a benchmark file without the column the script names.
    The statements that only display ([info], [head], [describe],
    [plot], [show]) are left out; [plot] raises on a table without rows,
    so these two functions are the run on tables that have rows. *)
Definition excess_of (stock_csv benchmark_csv : DataFrame)
  : option DataFrame :=
  option_map (excess_returns (stock_returns (stock_data stock_csv)))
    (sp_returns (benchmark_data benchmark_csv)).

Definition sharpe (stock_csv benchmark_csv : DataFrame) : option Labelled :=
  option_map annual_sharpe_ratio (excess_of stock_csv benchmark_csv).

(** The daily ratio of one column of observations, as the script
    computes it for every column of [excess_returns]. *)
Definition sharpe_of (xs : list f64) : f64 :=
  div (nanmean xs) (nanstd 1 xs).

(** The value a row of statistics holds at a position ([iloc]); past
    the last position, where [iloc] raises, it reads [NaN], so a
    statement about an asset also says that the position exists. *)
Definition value_at (j : nat) (l : Labelled) : f64 := nth j (map snd l) NaN.

(** The observations of a column that are there. *)
Definition valid (xs : list f64) : list f64 := filter notna xs.

(** One column of a table as a series over the table's index, and the
    subtraction of [sub_axis0] as it acts on that column alone. *)
Definition col_series (j : nat) (df : DataFrame) : Series :=
  map (fun r => (fst r, nth j (snd r) NaN)) (rows df).

Definition or_nan (o : option f64) : f64 :=
  match o with Some x => x | None => NaN end.

Definition sub_aligned (a s : Series) : Series :=
  if same_index (map fst a) (map fst s) then
    map2 (fun x b => (fst x, sub (snd x) (snd b))) a s
  else
    map (fun d => (d, sub (or_nan (lookup d a)) (or_nan (lookup d s))))
      (union_index (map fst a) (map fst s)).

(** A table without the rows of one date, and a series restricted to
    the dates that pass a test. *)
Definition without_date (d : date) (df : DataFrame) : DataFrame :=
  mkFrame (columns df) (filter (fun r => negb (fst r =? d)%Z) (rows df)).

Definition restrict {A : Type} (keep : date -> bool) (l : list (date * A))
  : list (date * A) :=
  filter (fun r => keep (fst r)) l.

Definition mem_date (d : date) (l : list date) : bool :=
  existsb (fun e => (e =? d)%Z) l.

Definition restrict_rows (keep : date -> bool) (df : DataFrame) : DataFrame :=
  mkFrame (columns df) (restrict keep (rows df)).

(** The dates both sides of a subtraction have. *)
Definition common (df : DataFrame) (s : Series) (d : date) : bool :=
  mem_date d (index df) && mem_date d (map fst s).

(** Sums, averages and spreads of real numbers, to state what the
    reductions compute on finite observations. *)
Definition Rsum (rs : list R) : R := fold_right Rplus 0 rs.

Definition Rmean (rs : list R) : R := Rsum rs / INR (length rs).

Definition sum_sq_dev (rs : list R) : R :=
  Rsum (map (fun r => (r - Rmean rs) * (r - Rmean rs)) rs).

(** ** The arithmetic of the script on binary64

    The same expressions on the doubles the script computes with, for
    one column at a time.  The sums run from left to right; on the
    columns of at most two observations used below every order of
    summation gives the same bits. *)

Module B64.

Definition isna (x : float) : bool := negb (PrimFloat.eqb x x).

Definition notna (x : float) : bool := negb (isna x).

(** [data / data.shift(1) - 1], one cell. *)
Definition pct (x prev : float) : float :=
  PrimFloat.sub (PrimFloat.div x prev) PrimFloat.one.

(** The other way of writing a percentage change. *)
Definition pct_as_difference (x prev : float) : float :=
  PrimFloat.div (PrimFloat.sub x prev) prev.

Definition pct_change_values (xs : list float) : list float :=
  map2 pct xs (shift PrimFloat.nan xs).

Definition fill0 (xs : list float) : list float :=
  map (fun x => if isna x then PrimFloat.zero else x) xs.

Definition fsum (xs : list float) : float :=
  fold_left PrimFloat.add xs PrimFloat.zero.

Definition count (xs : list float) : nat := length (filter notna xs).

Fixpoint of_nat (n : nat) : float :=
  match n with
  | O => PrimFloat.zero
  | S k => PrimFloat.add (of_nat k) PrimFloat.one
  end.

Definition nanmean (xs : list float) : float :=
  match count xs with
  | O => PrimFloat.nan
  | n => PrimFloat.div (fsum (fill0 xs)) (of_nat n)
  end.

Definition nanvar (ddof : nat) (xs : list float) : float :=
  let n := count xs in
  if (n <=? ddof)%nat then PrimFloat.nan
  else
    let avg := PrimFloat.div (fsum (fill0 xs)) (of_nat n) in
    let sqr :=
      map (fun x => if isna x then PrimFloat.zero
                    else PrimFloat.mul (PrimFloat.sub avg x)
                                       (PrimFloat.sub avg x)) xs in
    PrimFloat.div (fsum sqr) (PrimFloat.sub (of_nat n) (of_nat ddof)).

Definition nanstd (ddof : nat) (xs : list float) : float :=
  PrimFloat.sqrt (nanvar ddof xs).

Definition sharpe_of (xs : list float) : float :=
  PrimFloat.div (nanmean xs) (nanstd 1 xs).

(** The excess returns of an asset over a benchmark quoted on the same
    days, from the two price columns. *)
Definition excess_returns (asset benchmark : list float) : list float :=
  map2 PrimFloat.sub (pct_change_values asset)
    (pct_change_values benchmark).

(** The doubles nearest to 0.1, 0.3 and 0.7, as [read_csv] gives them
    for these fields, and the factor 3. *)
Definition q01 : float := 0x1.999999999999ap-4%float.
Definition q03 : float := 0x1.3333333333333p-2%float.



End B64.

(** ** Tables to run the script on *)

Definition one_column (name : string) (l : list (Z * Z)) : DataFrame :=
  mkFrame [name] (map (fun r => (fst r, [Num (IZR (snd r))])) l).

Definition two_columns (n1 n2 : string) (l : list (Z * (Z * Z)))
  : DataFrame :=
  mkFrame [n1; n2]
    (map (fun r => (fst r, [Num (IZR (fst (snd r)));
                            Num (IZR (snd (snd r)))])) l).

(** A benchmark that never moves, on four days and on three of them. *)
Definition flat4 : DataFrame :=
  one_column "S&P 500" [(1, 1); (2, 1); (3, 1); (4, 1)]%Z.

Definition flat134 : DataFrame :=
  one_column "S&P 500" [(1, 1); (3, 1); (4, 1)]%Z.

(** Returns 1, 3 and 5 on flat4's days. *)
Definition rising4 : DataFrame :=
  one_column "Amazon" [(1, 1); (2, 2); (3, 8); (4, 48)]%Z.


(** The returns of the flat benchmark. *)
Definition flat4_returns : Series :=
  [(1%Z, NaN); (2%Z, Num 0); (3%Z, Num 0); (4%Z, Num 0)].

(** The same returns from negative prices. *)
Definition negative4 : DataFrame :=
  one_column "Amazon" [(1, -1); (2, -2); (3, -8); (4, -48)]%Z.

(** A price that doubles every day. *)
Definition doubling4 : DataFrame :=
  one_column "Amazon" [(1, 1); (2, 2); (3, 4); (4, 8)]%Z.

(** One quoted day. *)
Definition single1 : DataFrame := one_column "Amazon" [(1, 7)]%Z.

(** A stock quoted on a day the benchmark lacks (day 2), and the same
    stock without that day. *)
Definition gap4 : DataFrame :=
  one_column "Amazon" [(1, 1); (2, 4); (3, 2); (4, 3)]%Z.

Definition gap134 : DataFrame :=
  one_column "Amazon" [(1, 1); (3, 2); (4, 3)]%Z.

(** The same quotes in date order and with days 2 and 3 exchanged. *)
Definition sorted4 : DataFrame :=
  one_column "Amazon" [(1, 4); (2, 2); (3, 3); (4, 3)]%Z.

Definition scrambled4 : DataFrame :=
  one_column "Amazon" [(1, 4); (3, 3); (2, 2); (4, 3)]%Z.


Definition pair4_flat : DataFrame :=
  two_columns "Amazon" "Facebook"
    [(1, (1, 1)); (2, (1, 2)); (3, (1, 8)); (4, (1, 48))]%Z.

(** A table of excess returns 1, 3, 5 after the empty first row. *)
Definition rising4_er : DataFrame :=
  mkFrame ["Amazon"%string]
    [(1%Z, [NaN]); (2%Z, [Num 1]); (3%Z, [Num 3]); (4%Z, [Num 5])].

(** A stock that follows the flat benchmark, quote for quote. *)
Definition tracking4 : DataFrame :=
  one_column "Amazon" [(1, 1); (2, 1); (3, 1); (4, 1)]%Z.

(** The quotes of rising4 under other dates, out of order. *)
Definition rising4_redated : DataFrame :=
  one_column "Amazon" [(9, 1); (3, 2); (7, 8); (5, 48)]%Z.

(** Excess returns of two assets: 1, 3, 5 and 1, 2, 3. *)
Definition two_assets_er : DataFrame :=
  mkFrame ["Amazon"; "Facebook"]%string
    [(1%Z, [NaN; NaN]); (2%Z, [Num 1; Num 1]);
     (3%Z, [Num 3; Num 2]); (4%Z, [Num 5; Num 3])].

(** Return series on days none of the tables above has. *)
Definition late_returns : Series := [(7%Z, NaN); (8%Z, Num 0)].

(** A table with a missing quote of the second asset on day 2. *)
Definition holed3 : DataFrame :=
  mkFrame ["Amazon"; "Facebook"]%string
    [(1%Z, [Num 1; Num 1]); (2%Z, [Num 2; NaN]); (3%Z, [Num 4; Num 2])].

(** Values above and below zero, an infinity included. *)
Definition is_positive (x : f64) : Prop :=
  x = PInf \/ exists r, x = Num r /\ 0 < r.

Definition is_negative (x : f64) : Prop :=
  x = NInf \/ exists r, x = Num r /\ r < 0.

(** A row is complete when none of its fields is missing. *)
Definition complete (r : date * list f64) : bool := forallb notna (snd r).

(** ** Arithmetic of the special values *)

Lemma Rsign_pos (r : R) : 0 < r -> Rsign r = Gt.
Proof.
  intros H. unfold Rsign.
  destruct (total_order_T r 0) as [[Hlt | Heq] | Hgt]; try reflexivity; lra.
Qed.

Lemma Rsign_neg (r : R) : r < 0 -> Rsign r = Lt.
Proof.
  intros H. unfold Rsign.
  destruct (total_order_T r 0) as [[Hlt | Heq] | Hgt]; try reflexivity; lra.
Qed.

Lemma Rsign_zero (r : R) : r = 0 -> Rsign r = Eq.
Proof.
  intros H. unfold Rsign.
  destruct (total_order_T r 0) as [[Hlt | Heq] | Hgt]; try reflexivity; lra.
Qed.

Lemma Rsign_cases (r : R) :
  (r < 0 /\ Rsign r = Lt) \/ (r = 0 /\ Rsign r = Eq) \/ (0 < r /\ Rsign r = Gt).
Proof.
  unfold Rsign.
  destruct (total_order_T r 0) as [[Hlt | Heq] | Hgt]; auto.
Qed.

(** Settles every [Rsign] of the goal whose sign linear arithmetic finds. *)
Ltac rsign :=
  repeat match goal with
         | |- context [Rsign ?r] =>
             first [ rewrite (Rsign_pos r) by lra
                   | rewrite (Rsign_neg r) by lra
                   | rewrite (Rsign_zero r) by lra ]
         end.

Ltac case_sign r :=
  let H := fresh "Hs" in
  let E := fresh "Es" in
  destruct (Rsign_cases r) as [[H E] | [[H E] | [H E]]];
  rewrite ?E in *.

Lemma div_nan_l (y : f64) : div NaN y = NaN.
Proof. reflexivity. Qed.

Lemma div_nan_r (x : f64) : div x NaN = NaN.
Proof. destruct x; reflexivity. Qed.

Lemma sub_nan_l (y : f64) : sub NaN y = NaN.
Proof. reflexivity. Qed.

Lemma sub_nan_r (x : f64) : sub x NaN = NaN.
Proof. destruct x; reflexivity. Qed.

Lemma mul_nan_l (y : f64) : mul NaN y = NaN.
Proof. reflexivity. Qed.

Lemma mul_nan_r (x : f64) : mul x NaN = NaN.
Proof. destruct x; reflexivity. Qed.

Lemma add_0_r (x : f64) : add x (Num 0) = x.
Proof. destruct x; simpl; try reflexivity. f_equal; lra. Qed.

Lemma pct_nan_l (p : f64) : pct NaN p = NaN.
Proof. reflexivity. Qed.

Lemma pct_nan_r (x : f64) : pct x NaN = NaN.
Proof. unfold pct. rewrite div_nan_r. reflexivity. Qed.

Lemma div_num (a b : R) : b <> 0 -> div (Num a) (Num b) = Num (a / b).
Proof.
  intros Hb. simpl. case_sign b; try reflexivity. contradiction.
Qed.

(** ** pct_change, row by row *)

Lemma map2_length {A B C : Type} (f : A -> B -> C) (l : list A) (m : list B) :
  length (map2 f l m) = Nat.min (length l) (length m).
Proof.
  revert m. induction l as [| a l IH]; intros [| b m]; simpl; auto.
Qed.

Lemma shift_length {A : Type} (fill : A) (l : list A) :
  length (shift fill l) = length l.
Proof.
  unfold shift. rewrite length_firstn. simpl. lia.
Qed.

Lemma shift_cons {A : Type} (fill a : A) (l : list A) :
  shift fill (a :: l) = fill :: shift a l.
Proof. reflexivity. Qed.

Lemma nth_shift {A : Type} (fill d : A) (l : list A) (i : nat) :
  (S i < length l)%nat ->
  nth (S i) (shift fill l) d = nth i l d.
Proof.
  intros Hi. unfold shift. rewrite nth_firstn.
  destruct (Nat.ltb_spec (S i) (length l)); [reflexivity | lia].
Qed.

Lemma nth_map2_pct (l m : list f64) (j : nat) :
  nth j (map2 pct l m) NaN = pct (nth j l NaN) (nth j m NaN).
Proof.
  revert m j. induction l as [| a l IH]; intros m j.
  - destruct j; reflexivity.
  - destruct m as [| b m].
    + simpl. destruct j; rewrite pct_nan_r; reflexivity.
    + destruct j as [| j]; simpl; [reflexivity | apply IH].
Qed.

Lemma nth_nan_row (df : DataFrame) (j : nat) : nth j (nan_row df) NaN = NaN.
Proof.
  unfold nan_row. revert j.
  induction (columns df) as [| c cs IH]; intros [| j]; simpl; auto.
Qed.

Lemma pct_change_values_nth (xs : list f64) (i : nat) :
  nth (S i) (pct_change_values xs) NaN
  = pct (nth (S i) xs NaN) (nth i xs NaN).
Proof.
  unfold pct_change_values. rewrite nth_map2_pct.
  destruct (Nat.lt_ge_cases (S i) (length xs)) as [Hi | Hi].
  - rewrite nth_shift by exact Hi. reflexivity.
  - rewrite (nth_overflow xs) by exact Hi. reflexivity.
Qed.

Lemma pct_change_values_first (xs : list f64) :
  nth 0 (pct_change_values xs) NaN = NaN.
Proof.
  destruct xs as [| x xs]; [reflexivity |].
  unfold pct_change_values. rewrite shift_cons. simpl. apply pct_nan_r.
Qed.

Lemma pct_change_values_length (xs : list f64) :
  length (pct_change_values xs) = length xs.
Proof.
  unfold pct_change_values. rewrite map2_length, shift_length. lia.
Qed.

Lemma map2_rows_column (j : nat) (fill : list f64) (vs : list (list f64)) :
  map (fun r => nth j r NaN) (map2 (map2 pct) vs (shift fill vs))
  = map2 pct (map (fun r => nth j r NaN) vs)
      (shift (nth j fill NaN) (map (fun r => nth j r NaN) vs)).
Proof.
  revert fill. induction vs as [| v vs IH]; intros fill.
  - reflexivity.
  - rewrite !map_cons, !shift_cons. simpl.
    rewrite nth_map2_pct. f_equal. apply IH.
Qed.

Lemma combine_map_snd {A B : Type} (l : list A) (m : list B) :
  length l = length m -> map snd (combine l m) = m.
Proof.
  revert m. induction l as [| a l IH]; intros [| b m] H; simpl in *;
    try discriminate; auto.
  f_equal. apply IH. lia.
Qed.

Lemma combine_map_fst {A B : Type} (l : list A) (m : list B) :
  length l = length m -> map fst (combine l m) = l.
Proof.
  revert m. induction l as [| a l IH]; intros [| b m] H; simpl in *;
    try discriminate; auto.
  f_equal. apply IH. lia.
Qed.

Lemma pct_change_rows_length (df : DataFrame) :
  length (map2 (map2 pct) (values df) (shift (nan_row df) (values df)))
  = length (index df).
Proof.
  rewrite map2_length, shift_length. unfold values, index.
  rewrite !length_map. lia.
Qed.

Lemma pct_change_index (df : DataFrame) :
  index (pct_change df) = index df.
Proof.
  unfold index at 1. simpl. apply combine_map_fst.
  symmetry. apply pct_change_rows_length.
Qed.

Lemma pct_change_column (j : nat) (df : DataFrame) :
  column j (pct_change df) = pct_change_values (column j df).
Proof.
  unfold column, pct_change. simpl.
  rewrite <- (map_map snd (fun r => nth j r NaN)).
  rewrite combine_map_snd by (symmetry; apply pct_change_rows_length).
  rewrite map2_rows_column, nth_nan_row.
  unfold pct_change_values, values. rewrite map_map. reflexivity.
Qed.

(** ** Rows of statistics *)

Lemma reduce_columns_values (f : list f64 -> f64) (df : DataFrame) :
  map snd (reduce_columns f df)
  = map (fun j => f (column j df)) (seq 0 (length (columns df))).
Proof.
  unfold reduce_columns. rewrite map_map. simpl.
  rewrite <- (map_map fst (fun j => f (column j df))).
  rewrite combine_map_fst by apply length_seq. reflexivity.
Qed.

Lemma reduce_columns_at (f : list f64 -> f64) (df : DataFrame) (j : nat) :
  (j < length (columns df))%nat ->
  value_at j (reduce_columns f df) = f (column j df).
Proof.
  intros Hj. unfold value_at. rewrite reduce_columns_values.
  rewrite (nth_indep _ NaN (f (column 0 df)))
    by (rewrite length_map, length_seq; exact Hj).
  rewrite (map_nth (fun j => f (column j df))), seq_nth by exact Hj.
  reflexivity.
Qed.

Lemma reduce_columns_length (f : list f64 -> f64) (df : DataFrame) :
  length (reduce_columns f df) = length (columns df).
Proof.
  unfold reduce_columns. rewrite length_map, length_combine, length_seq. lia.
Qed.

Lemma map2_values_div (a b : Labelled) :
  map snd (labelled_div a b) = map2 div (map snd a) (map snd b).
Proof.
  revert b. induction a as [| x a IH]; intros [| y b]; simpl; auto.
  f_equal. apply IH.
Qed.

Lemma nth_map2_div (l m : list f64) (j : nat) :
  nth j (map2 div l m) NaN = div (nth j l NaN) (nth j m NaN).
Proof.
  revert m j. induction l as [| a l IH]; intros m j.
  - destruct j; reflexivity.
  - destruct m as [| b m].
    + simpl. destruct j; rewrite div_nan_r; reflexivity.
    + destruct j as [| j]; simpl; [reflexivity | apply IH].
Qed.

Lemma daily_at (er : DataFrame) (j : nat) :
  (j < length (columns er))%nat ->
  value_at j (daily_sharpe_ratio er) = sharpe_of (column j er).
Proof.
  intros Hj. unfold value_at, daily_sharpe_ratio.
  rewrite map2_values_div, nth_map2_div.
  fold (value_at j (avg_excess_return er)).
  fold (value_at j (sd_excess_return er)).
  unfold avg_excess_return, sd_excess_return, frame_mean, frame_std.
  rewrite !reduce_columns_at by exact Hj. reflexivity.
Qed.

Lemma daily_at_overflow (er : DataFrame) (j : nat) :
  (length (columns er) <= j)%nat ->
  value_at j (daily_sharpe_ratio er) = NaN.
Proof.
  intros Hj. unfold value_at. apply nth_overflow.
  rewrite length_map. unfold daily_sharpe_ratio, labelled_div.
  rewrite map2_length. unfold avg_excess_return, frame_mean.
  rewrite reduce_columns_length. lia.
Qed.

Lemma annual_at (er : DataFrame) (j : nat) :
  value_at j (annual_sharpe_ratio er)
  = mul (value_at j (daily_sharpe_ratio er)) annual_factor.
Proof.
  unfold value_at, annual_sharpe_ratio, labelled_mul.
  rewrite map_map. simpl.
  rewrite <- (map_map snd (fun x => mul x annual_factor)).
  change NaN with (mul NaN annual_factor) at 1.
  apply (map_nth (fun x => mul x annual_factor)).
Qed.

Lemma sqrt_252_pos : 0 < sqrt 252.
Proof. apply sqrt_lt_R0. lra. Qed.

Lemma annual_factor_value : annual_factor = Num (sqrt 252).
Proof. unfold annual_factor. simpl. rsign. reflexivity. Qed.

(** ** The reductions see only the observations that are there *)

Lemma fsum_fill0_acc (xs : list f64) (acc : f64) :
  fold_left add (fill0 xs) acc = fold_left add (valid xs) acc.
Proof.
  revert acc. induction xs as [| x xs IH]; intros acc; simpl.
  - reflexivity.
  - destruct x; simpl; rewrite ?add_0_r; apply IH.
Qed.

Lemma fsum_fill0 (xs : list f64) : fsum (fill0 xs) = fsum (valid xs).
Proof. apply fsum_fill0_acc. Qed.

Lemma valid_idem (xs : list f64) : valid (valid xs) = valid xs.
Proof.
  unfold valid. induction xs as [| x xs IH]; simpl; [reflexivity |].
  destruct (notna x) eqn:E; simpl; rewrite ?E, IH; reflexivity.
Qed.

Lemma count_valid (xs : list f64) : count (valid xs) = count xs.
Proof.
  unfold count. fold (valid xs). fold (valid (valid xs)).
  now rewrite valid_idem.
Qed.

Lemma sqr_sum_acc (avg : f64) (xs : list f64) (acc : f64) :
  fold_left add
    (map (fun x => if isna x then Num 0
                   else mul (sub avg x) (sub avg x)) xs) acc
  = fold_left add
      (map (fun x => mul (sub avg x) (sub avg x)) (valid xs)) acc.
Proof.
  revert acc. induction xs as [| x xs IH]; intros acc; simpl.
  - reflexivity.
  - destruct x; simpl; rewrite ?add_0_r; apply IH.
Qed.

Lemma nanmean_valid (xs : list f64) : nanmean (valid xs) = nanmean xs.
Proof.
  unfold nanmean. rewrite count_valid, !fsum_fill0, valid_idem. reflexivity.
Qed.

Lemma nanvar_valid (ddof : nat) (xs : list f64) :
  nanvar ddof (valid xs) = nanvar ddof xs.
Proof.
  unfold nanvar. rewrite count_valid, !fsum_fill0, valid_idem.
  unfold fsum. rewrite !sqr_sum_acc, valid_idem. reflexivity.
Qed.

Lemma nanstd_valid (ddof : nat) (xs : list f64) :
  nanstd ddof (valid xs) = nanstd ddof xs.
Proof. unfold nanstd. now rewrite nanvar_valid. Qed.

Lemma sharpe_of_valid (xs : list f64) : sharpe_of (valid xs) = sharpe_of xs.
Proof. unfold sharpe_of. now rewrite nanmean_valid, nanstd_valid. Qed.

(** ** The reductions on finite observations *)

Lemma fsum_num_acc (rs : list R) (a : R) :
  fold_left add (map Num rs) (Num a) = Num (a + Rsum rs).
Proof.
  revert a. induction rs as [| r rs IH]; intros a; simpl.
  - f_equal. lra.
  - rewrite IH. f_equal. lra.
Qed.

Lemma fsum_num (rs : list R) : fsum (map Num rs) = Num (Rsum rs).
Proof. unfold fsum. rewrite fsum_num_acc. f_equal. lra. Qed.

Lemma valid_num (rs : list R) : valid (map Num rs) = map Num rs.
Proof.
  unfold valid. induction rs as [| r rs IH]; simpl; [| rewrite IH]; reflexivity.
Qed.

Lemma count_of_valid (xs : list f64) (rs : list R) :
  valid xs = map Num rs -> count xs = length rs.
Proof.
  intros H. unfold count. fold (valid xs). rewrite H. apply length_map.
Qed.

Lemma INR_pos (n : nat) : (0 < n)%nat -> 0 < INR n.
Proof. intros H. apply lt_0_INR. exact H. Qed.

Lemma nanmean_finite (xs : list f64) (rs : list R) :
  valid xs = map Num rs -> rs <> [] ->
  nanmean xs = Num (Rmean rs).
Proof.
  intros Hv Hne. unfold nanmean.
  rewrite (count_of_valid xs rs Hv), fsum_fill0, Hv, fsum_num.
  destruct rs as [| r rs]; [contradiction |].
  cbn [length]. rewrite div_num.
  - reflexivity.
  - apply Rgt_not_eq, INR_pos. lia.
Qed.

Lemma Rsum_ext (f g : R -> R) (rs : list R) :
  (forall r, f r = g r) -> Rsum (map f rs) = Rsum (map g rs).
Proof.
  intros H. induction rs as [| r rs IH]; simpl; [reflexivity |].
  rewrite H, IH. reflexivity.
Qed.

Lemma Rsum_squares_nonneg (f : R -> R) (rs : list R) :
  0 <= Rsum (map (fun r => f r * f r) rs).
Proof.
  induction rs as [| r rs IH]; simpl; [lra |].
  pose proof (Rle_0_sqr (f r)) as H. unfold Rsqr in H. lra.
Qed.

Lemma sum_sq_dev_nonneg (rs : list R) : 0 <= sum_sq_dev rs.
Proof.
  unfold sum_sq_dev. apply (Rsum_squares_nonneg (fun r => r - Rmean rs)).
Qed.

Lemma nanvar_finite (xs : list f64) (rs : list R) :
  valid xs = map Num rs -> (2 <= length rs)%nat ->
  nanvar 1 xs = Num (sum_sq_dev rs / (INR (length rs) - 1)).
Proof.
  intros Hv Hn. unfold nanvar.
  rewrite (count_of_valid xs rs Hv).
  destruct (Nat.leb_spec (length rs) 1) as [Hle | Hgt]; [lia |].
  rewrite fsum_fill0, Hv, fsum_num.
  assert (Hpos : 0 < INR (length rs)) by (apply INR_pos; lia).
  rewrite div_num by lra.
  unfold fsum. rewrite sqr_sum_acc, Hv, map_map. cbn [sub neg add mul].
  rewrite <- (map_map (fun r => (Rsum rs / INR (length rs) + - r)
                               * (Rsum rs / INR (length rs) + - r)) Num).
  rewrite fsum_num_acc.
  assert (H1 : 1 < INR (length rs)).
  { change 1 with (INR 1). apply lt_INR. lia. }
  change (INR 1) with 1. rewrite div_num by lra.
  f_equal. f_equal. rewrite Rplus_0_l. unfold sum_sq_dev, Rmean.
  apply Rsum_ext. intros r. ring.
Qed.

Lemma var_nonneg (rs : list R) :
  (2 <= length rs)%nat -> 0 <= sum_sq_dev rs / (INR (length rs) - 1).
Proof.
  intros Hn.
  assert (H1 : 1 < INR (length rs)).
  { change 1 with (INR 1). apply lt_INR. lia. }
  apply Rmult_le_pos; [apply sum_sq_dev_nonneg |].
  apply Rlt_le, Rinv_0_lt_compat. lra.
Qed.

Lemma fsqrt_nonneg (a : R) : 0 <= a -> fsqrt (Num a) = Num (sqrt a).
Proof.
  intros H. simpl. case_sign a; try reflexivity. lra.
Qed.

Lemma nanstd_finite (xs : list f64) (rs : list R) :
  valid xs = map Num rs -> (2 <= length rs)%nat ->
  nanstd 1 xs = Num (sqrt (sum_sq_dev rs / (INR (length rs) - 1))).
Proof.
  intros Hv Hn. unfold nanstd.
  rewrite (nanvar_finite xs rs Hv Hn).
  apply fsqrt_nonneg, var_nonneg, Hn.
Qed.

(** With fewer than two observations there is no spread, and no ratio. *)
Lemma nanstd_few (xs : list f64) : (count xs < 2)%nat -> nanstd 1 xs = NaN.
Proof.
  intros H. unfold nanstd, nanvar.
  destruct (Nat.leb_spec (count xs) 1) as [Hle | Hgt]; [reflexivity | lia].
Qed.

Lemma sharpe_of_few (xs : list f64) : (count xs < 2)%nat -> sharpe_of xs = NaN.
Proof.
  intros H. unfold sharpe_of. rewrite nanstd_few by exact H. apply div_nan_r.
Qed.

(** ** Alignment and subtraction, one column at a time *)

Lemma column_of_series (j : nat) (df : DataFrame) :
  column j df = map snd (col_series j df).
Proof. unfold column, col_series. rewrite map_map. reflexivity. Qed.

Lemma index_of_series (j : nat) (df : DataFrame) :
  index df = map fst (col_series j df).
Proof. unfold index, col_series. rewrite map_map. reflexivity. Qed.

Lemma col_series_combine (j : nat) (df : DataFrame) :
  col_series j df = combine (index df) (column j df).
Proof.
  unfold col_series, index, column.
  induction (rows df) as [| r l IH]; simpl; [| rewrite IH]; reflexivity.
Qed.

Lemma nth_sub_row (row : list f64) (b : f64) (j : nat) :
  nth j (sub_row row b) NaN = sub (nth j row NaN) b.
Proof.
  unfold sub_row. change NaN with (sub NaN b) at 1.
  apply (map_nth (fun x => sub x b)).
Qed.

Lemma lookup_map_snd {A B : Type} (f : A -> B) (d : date)
  (l : list (date * A)) :
  lookup d (map (fun r => (fst r, f (snd r))) l) = option_map f (lookup d l).
Proof.
  induction l as [| [e a] l IH]; simpl; [reflexivity |].
  destruct (e =? d)%Z; [reflexivity | exact IH].
Qed.

Lemma lookup_in {A : Type} (d : date) (l : list (date * A)) (a : A) :
  lookup d l = Some a -> In (d, a) l.
Proof.
  induction l as [| [e b] l IH]; simpl; [discriminate |].
  destruct (Z.eqb_spec e d) as [-> | Hne].
  - intros [= ->]. now left.
  - intros H. right. now apply IH.
Qed.

Lemma lookup_none {A : Type} (d : date) (l : list (date * A)) :
  lookup d l = None -> ~ In d (map fst l).
Proof.
  induction l as [| [e b] l IH]; simpl; [tauto |].
  destruct (Z.eqb_spec e d) as [-> | Hne]; [discriminate |].
  intros H [Heq | Hin]; [contradiction | now apply IH].
Qed.

Lemma same_index_eq (l r : list date) : same_index l r = true <-> l = r.
Proof.
  revert r. induction l as [| d l IH]; intros [| e r]; simpl;
    try (split; (reflexivity || discriminate)).
  rewrite andb_true_iff, Z.eqb_eq, IH. split.
  - intros [-> ->]. reflexivity.
  - intros [= -> ->]. auto.
Qed.

Lemma col_series_sub (j : nat) (df : DataFrame) (s : Series) :
  col_series j (sub_axis0 df s) = sub_aligned (col_series j df) s.
Proof.
  unfold sub_axis0, sub_aligned. rewrite <- (index_of_series j df).
  destruct (same_index (index df) (map fst s)).
  - unfold col_series. simpl. clear.
    revert s. induction (rows df) as [| r l IH]; intros [| b s]; simpl;
      try reflexivity.
    rewrite nth_sub_row, IH. reflexivity.
  - unfold col_series at 1. simpl. rewrite map_map. apply map_ext.
    intros d. simpl. rewrite nth_sub_row. f_equal. f_equal.
    unfold col_series. rewrite (lookup_map_snd (fun row => nth j row NaN)).
    destruct (lookup d (rows df)); simpl; [reflexivity | apply nth_nan_row].
Qed.

Lemma excess_column (j : nat) (sr : DataFrame) (sp : Series) :
  column j (excess_returns sr sp)
  = map snd (sub_aligned (col_series j sr) sp).
Proof.
  unfold excess_returns. rewrite column_of_series, col_series_sub.
  reflexivity.
Qed.

(** The column of the result depends on the table only through that
    column and the index. *)
Lemma excess_column_ext (j : nat) (sr sr' : DataFrame) (sp : Series) :
  index sr = index sr' -> column j sr = column j sr' ->
  column j (excess_returns sr sp) = column j (excess_returns sr' sp).
Proof.
  intros Hi Hc. rewrite !excess_column, !col_series_combine, Hi, Hc.
  reflexivity.
Qed.

(** Every entry of the difference that is there comes from an entry of
    each side, on the same date, that is there. *)
Lemma sub_notna (x y : f64) : sub x y <> NaN -> x <> NaN /\ y <> NaN.
Proof.
  intros H. split; intros ->; apply H; [apply sub_nan_l | apply sub_nan_r].
Qed.

Lemma sub_aligned_origin (a s : Series) (d : date) (x : f64) :
  In (d, x) (sub_aligned a s) -> x <> NaN ->
  exists xa xs, In (d, xa) a /\ In (d, xs) s /\ x = sub xa xs.
Proof.
  unfold sub_aligned. destruct (same_index (map fst a) (map fst s)) eqn:E.
  - apply same_index_eq in E. revert s E.
    induction a as [| [da va] a IH]; intros [| [ds vs] s] E Hin Hx;
      simpl in *; try contradiction; try discriminate.
    injection E as -> E. destruct Hin as [[= <- <-] | Hin].
    + exists va, vs. auto.
    + destruct (IH s E Hin Hx) as (xa & xs & H1 & H2 & H3).
      exists xa, xs. auto.
  - intros Hin Hx. apply in_map_iff in Hin as (e & [= -> <-] & _).
    destruct (sub_notna _ _ Hx) as [Ha Hs].
    destruct (lookup d a) as [xa |] eqn:La; [| contradiction].
    destruct (lookup d s) as [xs |] eqn:Ls; [| contradiction].
    exists xa, xs. simpl. auto using lookup_in.
Qed.

(** Rows that hold nothing in a column can be left out of the column
    without changing what the reductions see. *)
Lemma valid_restrict (keep : date -> bool) (l : Series) :
  (forall d x, In (d, x) l -> keep d = false -> x = NaN) ->
  valid (map snd (restrict keep l)) = valid (map snd l).
Proof.
  unfold restrict, valid. induction l as [| [d x] l IH]; intros H; simpl.
  - reflexivity.
  - assert (IH' : filter notna (map snd (filter (fun r => keep (fst r)) l))
                  = filter notna (map snd l)).
    { apply IH. intros d' x' Hin. apply H. now right. }
    destruct (keep d) eqn:K; simpl.
    + rewrite IH'. reflexivity.
    + rewrite (H d x (or_introl eq_refl) K). simpl. exact IH'.
Qed.

Lemma sharpe_of_same_valid (xs ys : list f64) :
  valid xs = valid ys -> sharpe_of xs = sharpe_of ys.
Proof.
  intros H. rewrite <- (sharpe_of_valid xs), <- (sharpe_of_valid ys), H.
  reflexivity.
Qed.

Lemma nanmean_same_valid (xs ys : list f64) :
  valid xs = valid ys -> nanmean xs = nanmean ys.
Proof.
  intros H. rewrite <- (nanmean_valid xs), <- (nanmean_valid ys), H.
  reflexivity.
Qed.

Lemma nanstd_same_valid (xs ys : list f64) :
  valid xs = valid ys -> nanstd 1 xs = nanstd 1 ys.
Proof.
  intros H. rewrite <- (nanstd_valid 1 xs), <- (nanstd_valid 1 ys), H.
  reflexivity.
Qed.

Lemma col_series_without (j : nat) (d : date) (df : DataFrame) :
  col_series j (without_date d df)
  = restrict (fun e => negb (e =? d)%Z) (col_series j df).
Proof.
  unfold col_series, without_date, restrict. simpl.
  induction (rows df) as [| [e row] l IH]; simpl; [reflexivity |].
  destruct (e =? d)%Z; simpl; rewrite IH; reflexivity.
Qed.

Lemma col_series_pct_change (j : nat) (df : DataFrame) :
  col_series j (pct_change df)
  = combine (index df) (pct_change_values (column j df)).
Proof.
  rewrite col_series_combine, pct_change_index, pct_change_column.
  reflexivity.
Qed.

(** Under an index without repeated dates, the first date of a table
    carries no return. *)
Lemma first_date_no_return (j : nat) (df : DataFrame) (d0 : date)
  (r0 : list f64) (rest : list (date * list f64)) (x : f64) :
  rows df = (d0, r0) :: rest -> NoDup (index df) ->
  In (d0, x) (col_series j (pct_change df)) -> x = NaN.
Proof.
  intros Hrows Hnd. rewrite col_series_pct_change.
  unfold index, column in *. rewrite Hrows in *. cbn [map fst snd] in *.
  unfold pct_change_values. rewrite shift_cons. cbn [map2 combine].
  intros [[= <-] | Hin].
  - apply pct_nan_r.
  - apply in_combine_l in Hin. inversion Hnd; contradiction.
Qed.

Lemma not_nan_dec (x : f64) : x = NaN \/ x <> NaN.
Proof. destruct x; auto; right; discriminate. Qed.

(** An excess return that is there was computed from a return of the
    table that is there, on the same date. *)
Lemma excess_nan_where_returns_nan (a s : Series) (d : date) :
  (forall xa, In (d, xa) a -> xa = NaN) ->
  forall x, In (d, x) (sub_aligned a s) -> x = NaN.
Proof.
  intros Ha x Hin. destruct (not_nan_dec x) as [-> | Hx]; [reflexivity |].
  destruct (sub_aligned_origin a s d x Hin Hx) as (xa & xs & H1 & _ & ->).
  rewrite (Ha xa H1) in Hx. contradiction.
Qed.

Lemma excess_without_first_date (j : nat) (sd : DataFrame) (sp : Series)
  (d0 : date) (r0 : list f64) (rest : list (date * list f64)) :
  rows sd = (d0, r0) :: rest -> NoDup (index sd) ->
  valid (column j (without_date d0
                     (excess_returns (stock_returns sd) sp)))
  = valid (column j (excess_returns (stock_returns sd) sp)).
Proof.
  intros Hrows Hnd. rewrite !column_of_series, col_series_without.
  apply valid_restrict. intros d x Hin Hd.
  apply negb_false_iff, Z.eqb_eq in Hd. subst d.
  unfold excess_returns in Hin. rewrite col_series_sub in Hin.
  revert x Hin. apply excess_nan_where_returns_nan.
  intros xa. apply (first_date_no_return j sd d0 r0 rest xa Hrows Hnd).
Qed.

Lemma sp_returns_inv (bd : DataFrame) (s : Series) :
  sp_returns bd = Some s ->
  exists k, position "S&P 500" (columns bd) = Some k
            /\ map fst s = index bd
            /\ map snd s = pct_change_values (column k bd).
Proof.
  unfold sp_returns, getitem.
  destruct (position "S&P 500" (columns bd)) as [k |]; [| discriminate].
  simpl. intros [= <-]. exists k. split; [reflexivity |].
  fold (col_series k bd). unfold pct_change_series.
  rewrite <- (index_of_series k bd), <- (column_of_series k bd).
  split.
  - apply combine_map_fst. rewrite pct_change_values_length.
    unfold index, column. now rewrite !length_map.
  - apply combine_map_snd. rewrite pct_change_values_length.
    unfold index, column. now rewrite !length_map.
Qed.

Lemma sp_returns_of_position (bd : DataFrame) (k : nat) :
  position "S&P 500" (columns bd) = Some k ->
  sp_returns bd
  = Some (combine (index bd) (pct_change_values (column k bd))).
Proof.
  intros Hk. unfold sp_returns, getitem. rewrite Hk. cbn [option_map].
  fold (col_series k bd). unfold pct_change_series.
  now rewrite <- (index_of_series k bd), <- (column_of_series k bd).
Qed.

(** Telling two doubles apart by their bits. *)
Lemma floats_differ (x y : float) : Prim2SF x <> Prim2SF y -> x <> y.
Proof. intros H E. apply H. now rewrite E. Qed.

(** * The claims *)

(** C1, counterexample.  On the doubles the script computes with, the
    return from 0.1 to 0.3 is 0.3 / 0.1 - 1 = 1.9999999999999996, and
    (0.3 - 0.1) / 0.1 is 1.9999999999999998: the second formula is not
    the value of the return series. *)
Lemma difference_form_differs_on_doubles :
  nth 1 (B64.pct_change_values [B64.q01; B64.q03]) PrimFloat.nan
  = B64.pct B64.q03 B64.q01
  /\ B64.pct B64.q03 B64.q01 = 0x1.ffffffffffffep+0%float
  /\ B64.pct_as_difference B64.q03 B64.q01 = 0x1.fffffffffffffp+0%float
  /\ B64.pct B64.q03 B64.q01 <> B64.pct_as_difference B64.q03 B64.q01.
Proof.
  repeat split; try (vm_compute; reflexivity).
  apply floats_differ. vm_compute. discriminate.
Qed.

(** C1, as the code has it.  In every column of the price table, the
    return on row [i >= 1] is [price[i] / price[i-1] - 1], computed in
    that form; a benchmark table that has the column gives its return
    series in the same way, on the dates of the table.  The first row
    carries no return, and (the index having no repeated date) the mean,
    the standard deviation and the ratio of the excess returns are the
    same with the row of that first date left out. *)
Theorem returns_are_price_ratios (sd : DataFrame) (j : nat) :
  let price i := nth i (column j sd) NaN in
  let ret i := nth i (column j (stock_returns sd)) NaN in
  (forall i, ret (S i) = sub (div (price (S i)) (price i)) (Num 1))
  /\ ret 0%nat = NaN
  /\ (forall bd k, position "S&P 500" (columns bd) = Some k ->
        exists s, sp_returns bd = Some s
          /\ map fst s = index bd
          /\ nth 0 (map snd s) NaN = NaN
          /\ forall i, nth (S i) (map snd s) NaN
                       = sub (div (nth (S i) (column k bd) NaN)
                                  (nth i (column k bd) NaN)) (Num 1))
  /\ (forall sp d0 r0 rest,
        rows sd = (d0, r0) :: rest -> NoDup (index sd) ->
        let er := excess_returns (stock_returns sd) sp in
        nanmean (column j er) = nanmean (column j (without_date d0 er))
        /\ nanstd 1 (column j er) = nanstd 1 (column j (without_date d0 er))
        /\ sharpe_of (column j er)
           = sharpe_of (column j (without_date d0 er))).
Proof.
  intros price ret. subst price ret. cbv beta.
  unfold stock_returns. rewrite pct_change_column.
  split; [| split; [| split]].
  - intros i. apply pct_change_values_nth.
  - apply pct_change_values_first.
  - intros bd k Hk. eexists. split; [apply sp_returns_of_position, Hk |].
    assert (Hlen : length (index bd)
                   = length (pct_change_values (column k bd))).
    { rewrite pct_change_values_length. unfold index, column.
      now rewrite !length_map. }
    rewrite combine_map_fst, combine_map_snd by exact Hlen.
    split; [reflexivity | split].
    + apply pct_change_values_first.
    + intros i. apply pct_change_values_nth.
  - intros sp d0 r0 rest Hrows Hnd.
    pose proof (excess_without_first_date j sd sp d0 r0 rest Hrows Hnd) as H.
    unfold stock_returns in H. symmetry in H. cbv zeta.
    auto using nanmean_same_valid, nanstd_same_valid, sharpe_of_same_valid.
Qed.

(** ** Running the script on a given table *)

Lemma pct_num (a b : R) : b <> 0 -> pct (Num a) (Num b) = Num (a / b - 1).
Proof. intros H. unfold pct. rewrite div_num by exact H. reflexivity. Qed.

Lemma sub_num (a b : R) : sub (Num a) (Num b) = Num (a - b).
Proof. reflexivity. Qed.

Lemma mul_num (a b : R) : mul (Num a) (Num b) = Num (a * b).
Proof. reflexivity. Qed.

Lemma div_pos_zero (a b : R) : 0 < a -> b = 0 -> div (Num a) (Num b) = PInf.
Proof. intros Ha Hb. unfold div. rsign. reflexivity. Qed.

Lemma div_neg_zero (a b : R) : a < 0 -> b = 0 -> div (Num a) (Num b) = NInf.
Proof. intros Ha Hb. unfold div. rsign. reflexivity. Qed.

Lemma div_zero_zero (a b : R) : a = 0 -> b = 0 -> div (Num a) (Num b) = NaN.
Proof. intros Ha Hb. unfold div. rsign. reflexivity. Qed.

Lemma sqrt_value (v s : R) : 0 <= s -> v = s * s -> sqrt v = s.
Proof. intros Hs ->. apply sqrt_square, Hs. Qed.

(** Unfolds the tables and the list functions, and leaves the
    arithmetic and the reductions for the lemmas. *)
Ltac table :=
  cbn -[pct sub add mul div fsqrt nanmean nanstd sharpe_of
        IZR annual_factor].

Ltac cells :=
  repeat first
    [ rewrite pct_nan_r | rewrite pct_nan_l | rewrite sub_nan_l
    | rewrite sub_nan_r | rewrite pct_num by lra | rewrite sub_num ].

Ltac reals :=
  unfold sum_sq_dev, Rmean, Rsum; cbn [map fold_right length INR]; lra.

(** The finite observations of a column of evaluated cells. *)
Ltac reals_of xs :=
  lazymatch xs with
  | nil => constr:(@nil R)
  | NaN :: ?t => reals_of t
  | Num ?r :: ?t => let t' := reals_of t in constr:(r :: t')
  end.

Ltac mean_of_cells :=
  match goal with
  | |- context [nanmean ?xs] =>
      let rs := reals_of xs in
      rewrite (nanmean_finite xs rs eq_refl) by discriminate
  end.

Ltac std_of_cells :=
  match goal with
  | |- context [nanstd 1 ?xs] =>
      let rs := reals_of xs in
      rewrite (nanstd_finite xs rs eq_refl) by (simpl; lia)
  end.

(** The ratio of a column of finite observations that do spread. *)
Lemma sharpe_of_finite (xs : list f64) (rs : list R) :
  valid xs = map Num rs -> (2 <= length rs)%nat -> 0 < sum_sq_dev rs ->
  sharpe_of xs
  = Num (Rmean rs / sqrt (sum_sq_dev rs / (INR (length rs) - 1))).
Proof.
  intros Hv Hn Hpos. unfold sharpe_of.
  rewrite (nanmean_finite xs rs Hv)
    by (destruct rs; [simpl in Hn; lia | discriminate]).
  rewrite (nanstd_finite xs rs Hv Hn). apply div_num.
  apply Rgt_not_eq, sqrt_lt_R0.
  assert (H1 : 1 < INR (length rs)).
  { change 1 with (INR 1). apply lt_INR. lia. }
  apply Rdiv_lt_0_compat; lra.
Qed.

Lemma sharpe_of_value (xs : list f64) (rs : list R) (m s : R) :
  valid xs = map Num rs -> (2 <= length rs)%nat ->
  Rmean rs = m -> 0 < s ->
  sum_sq_dev rs / (INR (length rs) - 1) = s * s ->
  sharpe_of xs = Num (m / s).
Proof.
  intros Hv Hn Hm Hs Hvar. unfold sharpe_of.
  rewrite (nanmean_finite xs rs Hv)
    by (destruct rs; [simpl in Hn; lia | discriminate]).
  rewrite (nanstd_finite xs rs Hv Hn), Hvar.
  rewrite sqrt_square by lra.
  rewrite div_num by lra. now rewrite Hm.
Qed.

(** The sign of the ratio is the sign of the mean. *)
Lemma sharpe_of_sign (xs : list f64) (rs : list R) :
  valid xs = map Num rs -> (2 <= length rs)%nat -> 0 < sum_sq_dev rs ->
  exists r, sharpe_of xs = Num r
            /\ (Rmean rs = 0 -> r = 0)
            /\ (Rmean rs < 0 -> r < 0)
            /\ (0 < Rmean rs -> 0 < r).
Proof.
  intros Hv Hn Hpos. eexists. split.
  - apply (sharpe_of_finite xs rs Hv Hn Hpos).
  - assert (H1 : 1 < INR (length rs)).
    { change 1 with (INR 1). apply lt_INR. lia. }
    assert (Hs : 0 < / sqrt (sum_sq_dev rs / (INR (length rs) - 1))).
    { apply Rinv_0_lt_compat, sqrt_lt_R0, Rdiv_lt_0_compat; lra. }
    unfold Rdiv. repeat split; intros Hm.
    + rewrite Hm. ring.
    + rewrite <- (Rmult_0_l (/ sqrt (sum_sq_dev rs / (INR (length rs) - 1)))).
      apply Rmult_lt_compat_r; assumption.
    + apply Rmult_lt_0_compat; assumption.
Qed.

Lemma NoDup_1234 : NoDup [1; 2; 3; 4]%Z.
Proof. repeat constructor; simpl; lia. Qed.

Example rising4_excess :
  excess_of rising4 flat4
  = Some (mkFrame ["Amazon"%string]
            [(1%Z, [NaN]); (2%Z, [Num (2 / 1 - 1 - (1 / 1 - 1))]);
             (3%Z, [Num (8 / 2 - 1 - (1 / 1 - 1))]);
             (4%Z, [Num (48 / 8 - 1 - (1 / 1 - 1))])]).
Proof.
  unfold excess_of. table. cells. reflexivity.
Qed.

Example rising4_daily :
  option_map daily_sharpe_ratio (excess_of rising4 flat4)
  = Some [("Amazon"%string, Num (3 / 2))].
Proof.
  rewrite rising4_excess. table.
  match goal with
  | |- context [div (nanmean ?xs) _] => fold (sharpe_of xs)
  end.
  rewrite (sharpe_of_value _
             [2 / 1 - 1 - (1 / 1 - 1); 8 / 2 - 1 - (1 / 1 - 1);
              48 / 8 - 1 - (1 / 1 - 1)] 3 2);
    first [reflexivity | simpl; lia | reals].
Qed.

Example rising4_sharpe :
  sharpe rising4 flat4 = Some [("Amazon"%string, Num (3 / 2 * sqrt 252))].
Proof.
  unfold sharpe.
  pose proof rising4_daily as H.
  destruct (excess_of rising4 flat4) as [er |]; [| discriminate].
  simpl in *. injection H as H.
  unfold annual_sharpe_ratio. rewrite H, annual_factor_value. reflexivity.
Qed.

Lemma returns_are_price_ratios_witness :
  (exists s, sp_returns flat4 = Some s
             /\ map fst s = index flat4
             /\ nth 0 (map snd s) NaN = NaN
             /\ forall i, nth (S i) (map snd s) NaN
                          = sub (div (nth (S i) (column 0 flat4) NaN)
                                     (nth i (column 0 flat4) NaN)) (Num 1))
  /\ sharpe_of
       (column 0 (excess_returns (stock_returns rising4) flat4_returns))
     = sharpe_of
         (column 0 (without_date 1%Z
                      (excess_returns (stock_returns rising4)
                         flat4_returns))).
Proof.
  pose proof (returns_are_price_ratios rising4 0) as H.
  split.
  - apply (proj1 (proj2 (proj2 H)) flat4 0%nat eq_refl).
  - apply (proj2 (proj2 (proj2 H)) flat4_returns 1%Z [Num 1]
             (tl (rows rising4)) eq_refl NoDup_1234).
Defined.

(** ** C2: a spread of zero *)

Lemma Rsum_zeros (rs : list R) : Forall (fun r => r = 0) rs -> Rsum rs = 0.
Proof.
  induction 1 as [| r rs Hr _ IH]; simpl; [reflexivity |].
  rewrite Hr, IH. lra.
Qed.

Lemma sum_sq_zeros (m : R) (rs : list R) :
  m = 0 -> Forall (fun r => r = 0) rs ->
  Rsum (map (fun r => (r - m) * (r - m)) rs) = 0.
Proof.
  intros ->. induction 1 as [| r rs Hr _ IH]; simpl; [reflexivity |].
  rewrite Hr, IH. lra.
Qed.

Lemma valid_of_zeros (xs : list f64) :
  Forall (fun x => x = NaN \/ x = Num 0) xs ->
  exists rs, valid xs = map Num rs /\ Forall (fun r => r = 0) rs.
Proof.
  induction 1 as [| x xs Hx _ (rs & Hv & Hz)].
  - exists []. split; [reflexivity | constructor].
  - destruct Hx as [-> | ->].
    + exists rs. split; [exact Hv | exact Hz].
    + exists (0 :: rs). split.
      * unfold valid in *. simpl. now rewrite Hv.
      * constructor; [reflexivity | exact Hz].
Qed.

(** Observations that are all zero have no ratio. *)
Lemma sharpe_of_zeros (xs : list f64) :
  Forall (fun x => x = NaN \/ x = Num 0) xs -> sharpe_of xs = NaN.
Proof.
  intros H. destruct (valid_of_zeros xs H) as (rs & Hv & Hz).
  destruct (Nat.lt_ge_cases (count xs) 2) as [Hfew | Hn].
  - apply sharpe_of_few, Hfew.
  - rewrite (count_of_valid xs rs Hv) in Hn. unfold sharpe_of.
    rewrite (nanmean_finite xs rs Hv)
      by (destruct rs; [simpl in Hn; lia | discriminate]).
    rewrite (nanstd_finite xs rs Hv Hn).
    assert (Hm : Rmean rs = 0).
    { unfold Rmean. rewrite (Rsum_zeros rs Hz). unfold Rdiv. ring. }
    apply div_zero_zero; [exact Hm |].
    unfold sum_sq_dev. rewrite (sum_sq_zeros _ rs Hm Hz).
    unfold Rdiv. rewrite Rmult_0_l. apply sqrt_0.
Qed.

Lemma sub_self (x : f64) : sub x x = NaN \/ sub x x = Num 0.
Proof.
  destruct x; simpl; auto. right. unfold sub. simpl. f_equal. lra.
Qed.

Lemma same_index_refl (l : list date) : same_index l l = true.
Proof. apply same_index_eq. reflexivity. Qed.

Lemma sub_aligned_self (a : Series) :
  Forall (fun x => x = NaN \/ x = Num 0) (map snd (sub_aligned a a)).
Proof.
  unfold sub_aligned. rewrite same_index_refl.
  induction a as [| [d x] a IH]; simpl; constructor; auto using sub_self.
Qed.

(** C2, counterexample.  The price doubles every day against a flat
    benchmark: the excess returns are 1, 1, 1, their standard deviation
    is zero, and the daily ratio is plus infinity, not the not-a-number
    marker. *)
Lemma zero_spread_gives_infinity :
  option_map sd_excess_return (excess_of doubling4 flat4)
  = Some [("Amazon"%string, Num 0)]
  /\ option_map daily_sharpe_ratio (excess_of doubling4 flat4)
     = Some [("Amazon"%string, PInf)]
  /\ PInf <> NaN.
Proof.
  assert (Hs : sqrt 0 = 0) by apply sqrt_0.
  unfold excess_of. table. cells. repeat split; try discriminate.
  - std_of_cells. do 3 f_equal. f_equal. rewrite <- Hs at 1. f_equal. reals.
  - mean_of_cells. std_of_cells.
    rewrite div_pos_zero; [reflexivity | reals |].
    rewrite <- Hs at 1. f_equal. reals.
Qed.

(** C2, as the code has it.  When the standard deviation of a column of
    excess returns is zero, the daily ratio is never a finite number: it
    is not-a-number when the mean is zero, and plus or minus infinity
    with the sign of a non-zero mean.  When an asset's return series is
    the benchmark's, the ratio is not-a-number.  Nothing is raised in
    either case. *)
Theorem zero_spread_ratio :
  (forall xs, nanstd 1 xs = Num 0 ->
     (sharpe_of xs = NaN \/ sharpe_of xs = PInf \/ sharpe_of xs = NInf)
     /\ (forall m, nanmean xs = Num m -> m = 0 -> sharpe_of xs = NaN)
     /\ (forall m, nanmean xs = Num m -> 0 < m -> sharpe_of xs = PInf)
     /\ (forall m, nanmean xs = Num m -> m < 0 -> sharpe_of xs = NInf))
  /\ (forall sr j,
        value_at j (daily_sharpe_ratio
                      (excess_returns sr (col_series j sr))) = NaN).
Proof.
  split.
  - intros xs Hsd. unfold sharpe_of. rewrite Hsd. repeat split.
    + destruct (nanmean xs) as [| | | m]; unfold div; rsign; auto.
      case_sign m; auto.
    + intros m -> Hm. now apply div_zero_zero.
    + intros m -> Hm. now apply div_pos_zero.
    + intros m -> Hm. now apply div_neg_zero.
  - intros sr j.
    destruct (Nat.lt_ge_cases j
                (length (columns (excess_returns sr (col_series j sr)))))
      as [Hj | Hj].
    + rewrite daily_at by exact Hj. rewrite excess_column.
      apply sharpe_of_zeros, sub_aligned_self.
    + apply daily_at_overflow, Hj.
Qed.

Lemma zero_spread_ratio_witness :
  sharpe_of [Num 1; Num 1] = PInf.
Proof.
  assert (Hs : sqrt 0 = 0) by apply sqrt_0.
  assert (Hm : nanmean [Num 1; Num 1] = Num ((1 + (1 + 0)) / (1 + 1))).
  { mean_of_cells. reflexivity. }
  refine (proj1 (proj2 (proj2 (proj1 zero_spread_ratio [Num 1; Num 1] _)))
            _ Hm _).
  - std_of_cells. f_equal. rewrite <- Hs at 1. f_equal. reals.
  - lra.
Defined.

(** ** C3: the standard deviation is the sample one *)

(** C3.  On a column of excess returns whose observations are the [N >= 2]
    finite values [rs], the standard deviation the ratio is divided by is
    the square root of the sum of squared deviations from the mean over
    [N - 1]; it is not the value that dividing by [N] gives, unless all
    deviations are zero. *)
Theorem sd_is_sample_sd (er : DataFrame) (j : nat) (rs : list R) :
  (j < length (columns er))%nat ->
  valid (column j er) = map Num rs ->
  (2 <= length rs)%nat ->
  value_at j (sd_excess_return er)
  = Num (sqrt (sum_sq_dev rs / (INR (length rs) - 1)))
  /\ (0 < sum_sq_dev rs ->
      value_at j (sd_excess_return er)
      <> Num (sqrt (sum_sq_dev rs / INR (length rs)))).
Proof.
  intros Hj Hv Hn.
  assert (Hsd : value_at j (sd_excess_return er)
                = Num (sqrt (sum_sq_dev rs / (INR (length rs) - 1)))).
  { unfold sd_excess_return, frame_std.
    rewrite reduce_columns_at by exact Hj.
    apply nanstd_finite; assumption. }
  split; [exact Hsd |].
  intros Hpos. rewrite Hsd. intros [= Heq].
  assert (H1 : 1 < INR (length rs)).
  { change 1 with (INR 1). apply lt_INR. lia. }
  apply sqrt_inj in Heq.
  - assert (Hx : sum_sq_dev rs * INR (length rs)
                 = sum_sq_dev rs * (INR (length rs) - 1)).
    { apply (Rmult_eq_compat_r (INR (length rs) * (INR (length rs) - 1)))
        in Heq.
      field_simplify in Heq; lra. }
    nra.
  - apply Rlt_le, Rdiv_lt_0_compat; lra.
  - apply Rlt_le, Rdiv_lt_0_compat; lra.
Qed.

Lemma sd_is_sample_sd_witness :
  value_at 0 (sd_excess_return rising4_er)
  = Num (sqrt (sum_sq_dev [1; 3; 5] / (INR 3 - 1))).
Proof.
  apply (sd_is_sample_sd rising4_er 0 [1; 3; 5]).
  - simpl. lia.
  - reflexivity.
  - simpl. lia.
Defined.

(** ** C4: annualization *)

Lemma labelled_mul_labels (a : Labelled) (k : f64) :
  map fst (labelled_mul a k) = map fst a.
Proof. unfold labelled_mul. rewrite map_map. reflexivity. Qed.

(** C4.  The annualized ratio of every asset is its daily ratio times
    the square root of 252, under the same label.  When the daily ratio
    is a finite number other than zero, the annualized ratio is that
    number times sqrt 252, and dividing it by the daily ratio gives
    sqrt 252 back. *)
Theorem annualization_is_scaling (er : DataFrame) (j : nat) :
  value_at j (annual_sharpe_ratio er)
  = mul (value_at j (daily_sharpe_ratio er)) (Num (sqrt 252))
  /\ map fst (annual_sharpe_ratio er) = map fst (daily_sharpe_ratio er)
  /\ (forall r,
        value_at j (daily_sharpe_ratio er) = Num r -> r <> 0 ->
        value_at j (annual_sharpe_ratio er) = Num (r * sqrt 252)
        /\ div (value_at j (annual_sharpe_ratio er))
               (value_at j (daily_sharpe_ratio er))
           = Num (sqrt 252)).
Proof.
  rewrite annual_at, annual_factor_value.
  split; [reflexivity | split].
  - apply labelled_mul_labels.
  - intros r Hr Hnz. rewrite Hr, mul_num. split; [reflexivity |].
    rewrite div_num by exact Hnz. f_equal. field. exact Hnz.
Qed.

Lemma rising4_er_daily :
  value_at 0 (daily_sharpe_ratio rising4_er) = Num (3 / 2).
Proof.
  rewrite daily_at by (simpl; lia).
  apply (sharpe_of_value _ [1; 3; 5] 3 2);
    first [reflexivity | simpl; lia | reals].
Qed.

Lemma annualization_is_scaling_witness :
  value_at 0 (annual_sharpe_ratio rising4_er) = Num (3 / 2 * sqrt 252)
  /\ div (value_at 0 (annual_sharpe_ratio rising4_er))
         (value_at 0 (daily_sharpe_ratio rising4_er))
     = Num (sqrt 252).
Proof.
  apply (proj2 (proj2 (annualization_is_scaling rising4_er 0)) (3 / 2)).
  - exact rising4_er_daily.
  - lra.
Defined.

(** ** C5: too few observations *)

Lemma count_all_nan (l : Series) :
  (forall d x, In (d, x) l -> x = NaN) -> count (map snd l) = 0%nat.
Proof.
  unfold count. induction l as [| [d x] l IH]; intros H; simpl.
  - reflexivity.
  - rewrite (H d x (or_introl eq_refl)). simpl.
    apply IH. intros d' x' Hin. apply (H d' x'). now right.
Qed.

Lemma single_row_returns (sd : DataFrame) (d : date) (row : list f64)
  (j : nat) (e : date) (x : f64) :
  rows sd = [(d, row)] ->
  In (e, x) (col_series j (stock_returns sd)) -> x = NaN.
Proof.
  intros Hrows. unfold stock_returns. rewrite col_series_pct_change.
  unfold index, column. rewrite Hrows. cbn [map fst snd].
  unfold pct_change_values. rewrite shift_cons. cbn [map2 combine].
  intros [[= _ <-] | []]. apply pct_nan_r.
Qed.

Lemma annual_of_nan (er : DataFrame) (j : nat) :
  value_at j (daily_sharpe_ratio er) = NaN ->
  value_at j (annual_sharpe_ratio er) = NaN.
Proof. intros H. rewrite annual_at, H. reflexivity. Qed.

Lemma daily_few (er : DataFrame) (j : nat) :
  (count (column j er) < 2)%nat ->
  value_at j (daily_sharpe_ratio er) = NaN.
Proof.
  intros H. destruct (Nat.lt_ge_cases j (length (columns er))) as [Hj | Hj].
  - rewrite daily_at by exact Hj. apply sharpe_of_few, H.
  - apply daily_at_overflow, Hj.
Qed.

Lemma reduce_columns_labels (f : list f64 -> f64) (df : DataFrame) :
  map fst (reduce_columns f df) = columns df.
Proof.
  unfold reduce_columns. rewrite map_map. simpl.
  apply combine_map_snd, length_seq.
Qed.

Lemma labelled_div_labels (a b : Labelled) :
  length a = length b -> map fst (labelled_div a b) = map fst a.
Proof.
  revert b. induction a as [| x a IH]; intros [| y b] H; simpl in *;
    try discriminate; [reflexivity |].
  f_equal. apply IH. lia.
Qed.

Lemma daily_labels (er : DataFrame) :
  map fst (daily_sharpe_ratio er) = columns er.
Proof.
  unfold daily_sharpe_ratio. rewrite labelled_div_labels.
  - apply reduce_columns_labels.
  - unfold avg_excess_return, sd_excess_return, frame_mean, frame_std.
    now rewrite !reduce_columns_length.
Qed.

Lemma annual_labels (er : DataFrame) :
  map fst (annual_sharpe_ratio er) = columns er.
Proof.
  unfold annual_sharpe_ratio. rewrite labelled_mul_labels.
  apply daily_labels.
Qed.

Lemma excess_columns (sr : DataFrame) (sp : Series) :
  columns (excess_returns sr sp) = columns sr.
Proof.
  unfold excess_returns, sub_axis0.
  destruct (same_index (index sr) (map fst sp)); reflexivity.
Qed.

Lemma entry_at {A B : Type} (l : list (A * B)) (j : nat) (da : A) (db : B) :
  (j < length l)%nat ->
  nth_error l j = Some (nth j (map fst l) da, nth j (map snd l) db).
Proof.
  revert j. induction l as [| [a b] l IH]; intros j Hj; simpl in Hj.
  - lia.
  - destruct j as [| j]; [reflexivity |]. simpl. apply IH. lia.
Qed.

Lemma daily_length (er : DataFrame) :
  length (daily_sharpe_ratio er) = length (columns er).
Proof. rewrite <- (daily_labels er). symmetry. apply length_map. Qed.

Lemma daily_entry (er : DataFrame) (j : nat) :
  (j < length (columns er))%nat ->
  nth_error (daily_sharpe_ratio er) j
  = Some (nth j (columns er) EmptyString,
          value_at j (daily_sharpe_ratio er)).
Proof.
  intros Hj. unfold value_at. rewrite <- (daily_labels er).
  apply entry_at. rewrite daily_length. exact Hj.
Qed.

Lemma annual_entry (er : DataFrame) (j : nat) :
  (j < length (columns er))%nat ->
  nth_error (annual_sharpe_ratio er) j
  = Some (nth j (columns er) EmptyString,
          value_at j (annual_sharpe_ratio er)).
Proof.
  intros Hj. unfold value_at. rewrite <- (annual_labels er).
  apply entry_at. rewrite <- (length_map fst), annual_labels. exact Hj.
Qed.

Example single1_excess :
  excess_of single1 flat4
  = Some (mkFrame ["Amazon"%string]
            [(1%Z, [NaN]); (2%Z, [NaN]); (3%Z, [NaN]); (4%Z, [NaN])]).
Proof. unfold excess_of. table. cells. reflexivity. Qed.

Example tracking4_excess :
  excess_of tracking4 flat4
  = Some (mkFrame ["Amazon"%string]
            [(1%Z, [NaN]); (2%Z, [Num (1 / 1 - 1 - (1 / 1 - 1))]);
             (3%Z, [Num (1 / 1 - 1 - (1 / 1 - 1))]);
             (4%Z, [Num (1 / 1 - 1 - (1 / 1 - 1))])]).
Proof. unfold excess_of. table. cells. reflexivity. Qed.

(** C5, counterexample.  A stock quoted on one day has no excess return
    at all; a stock that follows the benchmark on four days has three.
    The script gives both the same result, [NaN]: nothing in it says
    "insufficient data", and the result does not tell the two cases
    apart. *)
Lemma insufficient_data_is_not_told_apart :
  option_map (fun er => count (column 0 er)) (excess_of single1 flat4)
  = Some 0%nat
  /\ option_map (fun er => count (column 0 er)) (excess_of tracking4 flat4)
     = Some 3%nat
  /\ sharpe single1 flat4 = Some [("Amazon"%string, NaN)]
  /\ sharpe tracking4 flat4 = sharpe single1 flat4.
Proof.
  assert (H1 : sharpe single1 flat4 = Some [("Amazon"%string, NaN)]).
  { unfold sharpe. rewrite single1_excess. table.
    match goal with
    | |- context [div (nanmean ?xs) _] => fold (sharpe_of xs)
    end.
    rewrite sharpe_of_few by (cbn; lia). reflexivity. }
  assert (H2 : sharpe tracking4 flat4 = Some [("Amazon"%string, NaN)]).
  { unfold sharpe. rewrite tracking4_excess. table.
    match goal with
    | |- context [div (nanmean ?xs) _] => fold (sharpe_of xs)
    end.
    rewrite sharpe_of_zeros; [reflexivity |].
    repeat apply Forall_cons; try apply Forall_nil;
      first [left; reflexivity | right; f_equal; lra]. }
  rewrite single1_excess, tracking4_excess, H1, H2.
  repeat split; reflexivity.
Qed.

(** C5, as the code has it.  A price series of one row has a return
    series without any observation.  For a price table of one row, and
    generally for an asset with fewer than two excess-return
    observations, the asset keeps its entry in the result, under its
    label, and the daily and the annualized ratio in it are [NaN], the
    value pandas uses for a missing number and the one a zero spread
    with a zero mean gives too; no separate "insufficient data" result
    exists. *)
Theorem too_few_observations :
  (forall p, valid (pct_change_values [p]) = [])
  /\ (forall sd sp d row j,
        rows sd = [(d, row)] ->
        (j < length (columns sd))%nat ->
        let er := excess_returns (stock_returns sd) sp in
        count (column j er) = 0%nat
        /\ nth_error (daily_sharpe_ratio er) j
           = Some (nth j (columns sd) EmptyString, NaN)
        /\ nth_error (annual_sharpe_ratio er) j
           = Some (nth j (columns sd) EmptyString, NaN))
  /\ (forall er j,
        (j < length (columns er))%nat ->
        (count (column j er) < 2)%nat ->
        nth_error (daily_sharpe_ratio er) j
        = Some (nth j (columns er) EmptyString, NaN)
        /\ nth_error (annual_sharpe_ratio er) j
           = Some (nth j (columns er) EmptyString, NaN)).
Proof.
  assert (Hgen : forall er j, (j < length (columns er))%nat ->
                   (count (column j er) < 2)%nat ->
                   nth_error (daily_sharpe_ratio er) j
                   = Some (nth j (columns er) EmptyString, NaN)
                   /\ nth_error (annual_sharpe_ratio er) j
                      = Some (nth j (columns er) EmptyString, NaN)).
  { intros er j Hj H.
    rewrite (daily_entry er j Hj), (annual_entry er j Hj).
    rewrite (annual_of_nan er j (daily_few er j H)), (daily_few er j H).
    split; reflexivity. }
  split; [| split].
  - intros p. unfold pct_change_values. rewrite shift_cons. cbn [map2].
    rewrite pct_nan_r. reflexivity.
  - intros sd sp d row j Hrows Hj er.
    assert (Hc : count (column j er) = 0%nat).
    { subst er. rewrite excess_column. apply count_all_nan.
      intros e x Hin. revert x Hin. apply excess_nan_where_returns_nan.
      intros xa. apply (single_row_returns sd d row j e xa Hrows). }
    split; [exact Hc |].
    assert (Hcols : columns er = columns sd).
    { subst er. rewrite excess_columns. reflexivity. }
    rewrite <- Hcols. apply Hgen; [rewrite Hcols; exact Hj | lia].
  - exact Hgen.
Qed.

Lemma too_few_observations_witness :
  nth_error (annual_sharpe_ratio
               (excess_returns (stock_returns single1) flat4_returns)) 0
  = Some ("Amazon"%string, NaN).
Proof.
  apply (proj2 (proj2 (proj1 (proj2 too_few_observations) single1
                         flat4_returns 1%Z [Num 7] 0%nat eq_refl
                         ltac:(simpl; lia)))).
Defined.

(** ** C6: prices that are not positive *)

(** C6, counterexample.  A table of negative prices goes through the
    run like any other: the result is a number, not an error. *)
Lemma negative_prices_give_a_ratio :
  In (Num (-1)) (column 0 negative4)
  /\ sharpe negative4 flat4
     = Some [("Amazon"%string, Num (3 / 2 * sqrt 252))].
Proof.
  split; [left; reflexivity |].
  unfold sharpe, excess_of. table. cells.
  match goal with
  | |- context [div (nanmean ?xs) _] => fold (sharpe_of xs)
  end.
  rewrite (sharpe_of_value _
             [-2 / -1 - 1 - (1 / 1 - 1); -8 / -2 - 1 - (1 / 1 - 1);
              -48 / -8 - 1 - (1 / 1 - 1)] 3 2);
    try first [reflexivity | simpl; lia | reals].
  rewrite annual_factor_value. reflexivity.
Qed.

Lemma shift_map {A B : Type} (f : A -> B) (fill : A) (l : list A) :
  shift (f fill) (map f l) = map f (shift fill l).
Proof.
  unfold shift. rewrite length_map, <- firstn_map. reflexivity.
Qed.

Lemma daily_ext (er er' : DataFrame) (j : nat) :
  columns er = columns er' -> column j er = column j er' ->
  value_at j (daily_sharpe_ratio er) = value_at j (daily_sharpe_ratio er').
Proof.
  intros Hc Hj.
  destruct (Nat.lt_ge_cases j (length (columns er))) as [H | H].
  - rewrite !daily_at by (rewrite <- ?Hc; exact H). now rewrite Hj.
  - rewrite !daily_at_overflow by (rewrite <- ?Hc; exact H). reflexivity.
Qed.

Lemma annual_ext (er er' : DataFrame) (j : nat) :
  columns er = columns er' -> column j er = column j er' ->
  value_at j (annual_sharpe_ratio er) = value_at j (annual_sharpe_ratio er').
Proof.
  intros Hc Hj. rewrite !annual_at, (daily_ext er er' j Hc Hj). reflexivity.
Qed.

(** The ratios of an asset depend on the price table only through the
    dates and the prices of that asset. *)
Lemma ratios_of_returns_ext (sr sr' : DataFrame) (sp : Series) (j : nat) :
  columns sr = columns sr' -> index sr = index sr' ->
  column j sr = column j sr' ->
  value_at j (daily_sharpe_ratio (excess_returns sr sp))
  = value_at j (daily_sharpe_ratio (excess_returns sr' sp))
  /\ value_at j (annual_sharpe_ratio (excess_returns sr sp))
     = value_at j (annual_sharpe_ratio (excess_returns sr' sp)).
Proof.
  intros Hc Hi Hj.
  assert (Hcol : column j (excess_returns sr sp)
                 = column j (excess_returns sr' sp))
    by (apply excess_column_ext; assumption).
  assert (Hcs : columns (excess_returns sr sp)
                = columns (excess_returns sr' sp))
    by (rewrite !excess_columns; exact Hc).
  split; [apply daily_ext | apply annual_ext]; assumption.
Qed.

(** The same for the returns: equal columns of returns on the same
    dates give equal ratios. *)
Lemma ratios_of_prices_ext (sd sd' : DataFrame) (sp : Series) (j : nat) :
  columns sd' = columns sd -> index sd' = index sd ->
  column j (stock_returns sd') = column j (stock_returns sd) ->
  value_at j (daily_sharpe_ratio (excess_returns (stock_returns sd') sp))
  = value_at j (daily_sharpe_ratio (excess_returns (stock_returns sd) sp))
  /\ value_at j (annual_sharpe_ratio
                   (excess_returns (stock_returns sd') sp))
     = value_at j (annual_sharpe_ratio
                     (excess_returns (stock_returns sd) sp)).
Proof.
  intros Hcols Hidx Hret. apply ratios_of_returns_ext.
  - exact Hcols.
  - unfold stock_returns. rewrite !pct_change_index. exact Hidx.
  - exact Hret.
Qed.

Lemma div_neg (x y : f64) :
  y <> Num 0 -> div (neg x) (neg y) = div x y.
Proof.
  intros Hy. destruct x as [| | | a], y as [| | | b]; try reflexivity.
  - cbn [neg div]. case_sign b; try reflexivity.
    + rewrite (Rsign_pos (- b)) by lra. reflexivity.
    + subst b. contradiction.
    + rewrite (Rsign_neg (- b)) by lra. reflexivity.
  - cbn [neg div]. case_sign b; try reflexivity.
    + rewrite (Rsign_pos (- b)) by lra. reflexivity.
    + subst b. contradiction.
    + rewrite (Rsign_neg (- b)) by lra. reflexivity.
  - cbn [neg div]. case_sign b.
    + rewrite (Rsign_pos (- b)) by lra. f_equal. field. lra.
    + subst b. contradiction.
    + rewrite (Rsign_neg (- b)) by lra. f_equal. field. lra.
Qed.

Lemma map2_pct_neg (l m : list f64) :
  Forall (fun y => y <> Num 0) m ->
  map2 pct (map neg l) (map neg m) = map2 pct l m.
Proof.
  intros Hm. revert l. induction Hm as [| y m Hy _ IH]; intros [| x l];
    cbn [map map2]; try reflexivity.
  unfold pct at 1 3. rewrite (div_neg x y Hy). f_equal. apply IH.
Qed.

Lemma Forall_shift {A : Type} (P : A -> Prop) (fill : A) (l : list A) :
  P fill -> Forall P l -> Forall P (shift fill l).
Proof.
  intros Hf Hl. unfold shift.
  assert (H : Forall P (fill :: l)) by (constructor; assumption).
  generalize (length l) as n. revert H.
  generalize (fill :: l) as m. intros m H.
  induction H as [| a m Ha _ IH]; intros [| n]; simpl; constructor; auto.
Qed.

Lemma pct_change_values_neg (xs : list f64) :
  Forall (fun y => y <> Num 0) xs ->
  pct_change_values (map neg xs) = pct_change_values xs.
Proof.
  intros H. unfold pct_change_values.
  change NaN with (neg NaN) at 1. rewrite shift_map.
  apply map2_pct_neg, Forall_shift; [discriminate | exact H].
Qed.

(** On binary64 the quotient of two doubles is the quotient of their
    opposites, bit for bit, zeros and infinities included. *)
Lemma b64_div_opp (x y : float) :
  PrimFloat.div (PrimFloat.opp x) (PrimFloat.opp y) = PrimFloat.div x y.
Proof.
  apply Prim2SF_inj. rewrite !div_spec, !opp_spec.
  destruct (Prim2SF x) as [s | s | | s m e],
           (Prim2SF y) as [s' | s' | | s' m' e'];
    simpl; rewrite ?xorb_negb_negb; reflexivity.
Qed.

(** C6, as the code has it.  No price is checked: the return of a row
    is [price[i] / price[i-1] - 1] whatever the sign of the two prices,
    computed like any other and with no error raised.  So a column of
    prices and the column of their opposites (no price being zero) have
    the same returns and the same ratios; on binary64 the return from
    two doubles is, bit for bit, the return from their opposites. *)
Theorem no_price_validation :
  (forall sd j i,
     nth (S i) (column j (stock_returns sd)) NaN
     = sub (div (nth (S i) (column j sd) NaN) (nth i (column j sd) NaN))
           (Num 1))
  /\ (forall sd sd' sp j,
        columns sd' = columns sd -> index sd' = index sd ->
        column j sd' = map neg (column j sd) ->
        Forall (fun x => x <> Num 0) (column j sd) ->
        column j (stock_returns sd') = column j (stock_returns sd)
        /\ value_at j (daily_sharpe_ratio
                         (excess_returns (stock_returns sd') sp))
           = value_at j (daily_sharpe_ratio
                           (excess_returns (stock_returns sd) sp))
        /\ value_at j (annual_sharpe_ratio
                         (excess_returns (stock_returns sd') sp))
           = value_at j (annual_sharpe_ratio
                           (excess_returns (stock_returns sd) sp)))
  /\ (forall x y : float,
        B64.pct (PrimFloat.opp x) (PrimFloat.opp y) = B64.pct x y).
Proof.
  split; [| split].
  - intros sd j i. unfold stock_returns.
    rewrite pct_change_column. apply pct_change_values_nth.
  - intros sd sd' sp j Hcols Hidx Hcol Hnz.
    assert (Hret : column j (stock_returns sd') = column j (stock_returns sd)).
    { unfold stock_returns. rewrite !pct_change_column, Hcol.
      apply pct_change_values_neg, Hnz. }
    split; [exact Hret |].
    apply ratios_of_prices_ext; assumption.
  - intros x y. unfold B64.pct. now rewrite b64_div_opp.
Qed.

Lemma no_price_validation_witness :
  column 0 (stock_returns negative4) = column 0 (stock_returns rising4)
  /\ value_at 0 (annual_sharpe_ratio
                   (excess_returns (stock_returns negative4) flat4_returns))
     = value_at 0 (annual_sharpe_ratio
                     (excess_returns (stock_returns rising4) flat4_returns)).
Proof.
  assert (Hcol : column 0 negative4 = map neg (column 0 rising4)).
  { cbn -[IZR]. repeat f_equal; lra. }
  assert (Hnz : Forall (fun x => x <> Num 0) (column 0 rising4)).
  { cbn -[IZR]. repeat apply Forall_cons; try apply Forall_nil;
      intros [= H]; lra. }
  pose proof (proj1 (proj2 no_price_validation) rising4 negative4
                flat4_returns 0%nat eq_refl eq_refl Hcol Hnz)
    as (H1 & _ & H3).
  split; [exact H1 | exact H3].
Defined.

(** ** C7: the unit of the prices *)





(** ** C8: missing values and dates that do not match *)

Lemma col_series_restrict (j : nat) (keep : date -> bool) (df : DataFrame) :
  col_series j (restrict_rows keep df) = restrict keep (col_series j df).
Proof.
  unfold col_series, restrict_rows, restrict. simpl.
  induction (rows df) as [| [e row] l IH]; simpl; [reflexivity |].
  destruct (keep e); simpl; rewrite IH; reflexivity.
Qed.

Lemma mem_date_in (d : date) (l : list date) :
  In d l -> mem_date d l = true.
Proof.
  intros H. unfold mem_date. apply existsb_exists.
  exists d. split; [exact H | apply Z.eqb_refl].
Qed.

Lemma in_dates {A : Type} (d : date) (a : A) (l : list (date * A)) :
  In (d, a) l -> In d (map fst l).
Proof. intros H. apply (in_map fst) in H. exact H. Qed.

Lemma excess_valid_on_common (j : nat) (sr : DataFrame) (sp : Series) :
  valid (column j (restrict_rows (common sr sp) (excess_returns sr sp)))
  = valid (column j (excess_returns sr sp)).
Proof.
  rewrite !column_of_series, col_series_restrict.
  apply valid_restrict. intros d x Hin Hkeep.
  destruct (not_nan_dec x) as [Hx | Hx]; [exact Hx | exfalso].
  unfold excess_returns in Hin. rewrite col_series_sub in Hin.
  destruct (sub_aligned_origin _ _ d x Hin Hx) as (xa & xs & Ha & Hs & _).
  apply in_dates in Ha. apply in_dates in Hs.
  rewrite <- (index_of_series j sr) in Ha.
  unfold common in Hkeep.
  rewrite (mem_date_in d _ Ha), (mem_date_in d _ Hs) in Hkeep.
  discriminate.
Qed.

Lemma dropna_rows_complete (csv : DataFrame) :
  Forall (fun r => Forall (fun x => x <> NaN) (snd r)) (rows (dropna csv)).
Proof.
  unfold dropna. simpl. apply Forall_forall. intros r Hr.
  apply filter_In in Hr as [_ Hr].
  apply Forall_forall. intros x Hx.
  rewrite forallb_forall in Hr. specialize (Hr x Hx).
  intros ->. discriminate.
Qed.

Lemma annual_of_sign (name : string) (xs : list f64) (rs : list R) :
  valid xs = map Num rs -> (2 <= length rs)%nat -> 0 < sum_sq_dev rs ->
  exists r,
    [(name, mul (div (nanmean xs) (nanstd 1 xs)) annual_factor)]
    = [(name, Num r)]
    /\ (Rmean rs = 0 -> r = 0)
    /\ (Rmean rs < 0 -> r < 0)
    /\ (0 < Rmean rs -> 0 < r).
Proof.
  intros Hv Hn Hpos.
  destruct (sharpe_of_sign xs rs Hv Hn Hpos) as (r & Hr & H0 & Hneg & Hp).
  fold (sharpe_of xs). rewrite Hr, annual_factor_value, mul_num.
  pose proof sqrt_252_pos as Hs.
  exists (r * sqrt 252). repeat split; intros Hm.
  - rewrite (H0 Hm). ring.
  - specialize (Hneg Hm). nra.
  - specialize (Hp Hm). nra.
Qed.

Example gap4_excess :
  excess_of gap4 flat134
  = Some (mkFrame ["Amazon"%string]
            [(1%Z, [NaN]); (2%Z, [NaN]);
             (3%Z, [Num (2 / 4 - 1 - (1 / 1 - 1))]);
             (4%Z, [Num (3 / 2 - 1 - (1 / 1 - 1))])]).
Proof. unfold excess_of. table. cells. reflexivity. Qed.

Example gap134_excess :
  excess_of gap134 flat134
  = Some (mkFrame ["Amazon"%string]
            [(1%Z, [NaN]);
             (3%Z, [Num (2 / 1 - 1 - (1 / 1 - 1))]);
             (4%Z, [Num (3 / 2 - 1 - (1 / 1 - 1))])]).
Proof. unfold excess_of. table. cells. reflexivity. Qed.

(** C8, counterexample.  The stock is quoted on day 2 and the benchmark
    is not.  The price of day 2 still enters the return of day 3, so the
    mean of the excess returns and the ratio differ from those of the
    same stock with day 2 left out. *)
Lemma unmatched_date_changes_result :
  rows gap134
  = filter (fun r => mem_date (fst r) (index flat134)) (rows gap4)
  /\ option_map avg_excess_return (excess_of gap4 flat134)
     = Some [("Amazon"%string, Num 0)]
  /\ option_map avg_excess_return (excess_of gap134 flat134)
     = Some [("Amazon"%string, Num (3 / 4))]
  /\ sharpe gap4 flat134 <> sharpe gap134 flat134.
Proof.
  split; [reflexivity |].
  unfold sharpe. rewrite gap4_excess, gap134_excess.
  split; [| split].
  - table. mean_of_cells. do 3 f_equal. f_equal. reals.
  - table. mean_of_cells. do 3 f_equal. f_equal. reals.
  - table.
    destruct (annual_of_sign "Amazon"
                [NaN; NaN; Num (2 / 4 - 1 - (1 / 1 - 1));
                 Num (3 / 2 - 1 - (1 / 1 - 1))]
                [2 / 4 - 1 - (1 / 1 - 1); 3 / 2 - 1 - (1 / 1 - 1)])
      as (r & -> & Hr & _); try first [reflexivity | simpl; lia | reals].
    destruct (annual_of_sign "Amazon"
                [NaN; Num (2 / 1 - 1 - (1 / 1 - 1));
                 Num (3 / 2 - 1 - (1 / 1 - 1))]
                [2 / 1 - 1 - (1 / 1 - 1); 3 / 2 - 1 - (1 / 1 - 1)])
      as (r' & -> & _ & _ & Hr'); try first [reflexivity | simpl; lia | reals].
    intros [= Heq].
    assert (H0 : r = 0) by (apply Hr; reals).
    assert (H1 : 0 < r') by (apply Hr'; reals).
    lra.
Qed.

(** C8, as the code has it.  Rows with a missing value are dropped from
    each table as it is read.  The returns of a table are then taken
    between its own consecutive rows, before any alignment.  The
    subtraction aligns the two return series by date afterwards: the
    mean, the standard deviation and the ratio of an asset range over
    the dates that both series have, the rows of all other dates
    holding no excess return. *)
Theorem alignment_after_returns :
  (forall csv,
     rows (stock_data csv)
     = filter (fun r => forallb notna (snd r)) (rows csv)
     /\ Forall (fun r => Forall (fun x => x <> NaN) (snd r))
          (rows (stock_data csv))
     /\ Forall (fun r => Forall (fun x => x <> NaN) (snd r))
          (rows (benchmark_data csv)))
  /\ (forall sd j,
        column j (stock_returns sd) = pct_change_values (column j sd))
  /\ (forall sr sp j,
        let er := excess_returns sr sp in
        let both := restrict_rows (common sr sp) er in
        nanmean (column j er) = nanmean (column j both)
        /\ nanstd 1 (column j er) = nanstd 1 (column j both)
        /\ sharpe_of (column j er) = sharpe_of (column j both)).
Proof.
  split; [| split].
  - intros csv. split; [reflexivity |].
    split; apply dropna_rows_complete.
  - intros sd j. apply pct_change_column.
  - intros sr sp j er both. subst er both.
    pose proof (excess_valid_on_common j sr sp) as H. symmetry in H.
    auto using nanmean_same_valid, nanstd_same_valid, sharpe_of_same_valid.
Qed.

(** ** C9: the order of the rows *)

Example sorted4_excess :
  excess_of sorted4 flat4
  = Some (mkFrame ["Amazon"%string]
            [(1%Z, [NaN]);
             (2%Z, [Num (2 / 4 - 1 - (1 / 1 - 1))]);
             (3%Z, [Num (3 / 2 - 1 - (1 / 1 - 1))]);
             (4%Z, [Num (3 / 3 - 1 - (1 / 1 - 1))])]).
Proof. unfold excess_of. table. cells. reflexivity. Qed.

Example scrambled4_excess :
  excess_of scrambled4 flat4
  = Some (mkFrame ["Amazon"%string]
            [(1%Z, [NaN]);
             (2%Z, [Num (2 / 3 - 1 - (1 / 1 - 1))]);
             (3%Z, [Num (3 / 4 - 1 - (1 / 1 - 1))]);
             (4%Z, [Num (3 / 2 - 1 - (1 / 1 - 1))])]).
Proof. unfold excess_of. table. cells. reflexivity. Qed.

(** C9, counterexample.  The same four dated quotes, once in date order
    and once with days 2 and 3 exchanged in the file: the ratio is zero
    for the first table and negative for the second.  No step sorts the
    rows; each return is taken against the row before it in the file. *)
Lemma row_order_changes_result :
  Permutation (rows sorted4) (rows scrambled4)
  /\ sharpe sorted4 flat4 = Some [("Amazon"%string, Num 0)]
  /\ (exists r, r < 0
                /\ sharpe scrambled4 flat4 = Some [("Amazon"%string, Num r)])
  /\ sharpe sorted4 flat4 <> sharpe scrambled4 flat4.
Proof.
  assert (H1 : sharpe sorted4 flat4 = Some [("Amazon"%string, Num 0)]).
  { unfold sharpe. rewrite sorted4_excess. table.
    destruct (annual_of_sign "Amazon"
                [NaN; Num (2 / 4 - 1 - (1 / 1 - 1));
                 Num (3 / 2 - 1 - (1 / 1 - 1));
                 Num (3 / 3 - 1 - (1 / 1 - 1))]
                [2 / 4 - 1 - (1 / 1 - 1); 3 / 2 - 1 - (1 / 1 - 1);
                 3 / 3 - 1 - (1 / 1 - 1)])
      as (r & -> & Hr & _); try first [reflexivity | simpl; lia | reals].
    rewrite Hr by reals. reflexivity. }
  assert (H2 : exists r, r < 0
                 /\ sharpe scrambled4 flat4
                    = Some [("Amazon"%string, Num r)]).
  { unfold sharpe. rewrite scrambled4_excess. table.
    destruct (annual_of_sign "Amazon"
                [NaN; Num (2 / 3 - 1 - (1 / 1 - 1));
                 Num (3 / 4 - 1 - (1 / 1 - 1));
                 Num (3 / 2 - 1 - (1 / 1 - 1))]
                [2 / 3 - 1 - (1 / 1 - 1); 3 / 4 - 1 - (1 / 1 - 1);
                 3 / 2 - 1 - (1 / 1 - 1)])
      as (r & -> & _ & Hr & _); try first [reflexivity | simpl; lia | reals].
    exists r. split; [apply Hr; reals | reflexivity]. }
  split; [| split; [exact H1 | split; [exact H2 |]]].
  - unfold sorted4, scrambled4, one_column. cbn [rows map].
    apply perm_skip, perm_swap.
  - destruct H2 as (r & Hr & ->). rewrite H1. intros [= Heq]. lra.
Qed.

(** C9, as the code has it.  The rows are never sorted by date: they
    keep the order of the file through [dropna] and [pct_change], for
    the stock table and for the benchmark, and the returns of a column
    are a function of its prices in that order, whatever the dates on
    the rows.  So permuting the rows of a price table can change an
    asset's ratio. *)
Theorem rows_are_never_sorted :
  (forall csv,
     index (stock_returns (stock_data csv))
     = map fst (filter complete (rows csv)))
  /\ (forall csv s,
        sp_returns (benchmark_data csv) = Some s ->
        map fst s = map fst (filter complete (rows csv)))
  /\ (forall sd sd' j,
        column j sd = column j sd' ->
        column j (stock_returns sd) = column j (stock_returns sd')).
Proof.
  split; [| split].
  - intros csv. unfold stock_returns. rewrite pct_change_index. reflexivity.
  - intros csv s Hs.
    destruct (sp_returns_inv _ s Hs) as (k & _ & Hi & _).
    rewrite Hi. reflexivity.
  - intros sd sd' j H. unfold stock_returns.
    now rewrite !pct_change_column, H.
Qed.

Lemma rows_are_never_sorted_witness :
  column 0 (stock_returns rising4) = column 0 (stock_returns rising4_redated).
Proof.
  apply (proj2 (proj2 rows_are_never_sorted) rising4 rising4_redated 0%nat).
  reflexivity.
Defined.

(** ** C10: undefined ratios, asset by asset *)


Example pair4_flat_sharpe :
  sharpe pair4_flat flat4
  = Some [("Amazon"%string, NaN);
          ("Facebook"%string, Num (3 / 2 * sqrt 252))].
Proof.
  unfold sharpe, excess_of. table. cells.
  repeat match goal with
         | |- context [div (nanmean ?xs) (nanstd 1 ?xs)] =>
             fold (sharpe_of xs)
         end.
  rewrite (sharpe_of_zeros
             [NaN; Num (1 / 1 - 1 - (1 / 1 - 1));
              Num (1 / 1 - 1 - (1 / 1 - 1)); Num (1 / 1 - 1 - (1 / 1 - 1))]).
  - rewrite (sharpe_of_value _
               [2 / 1 - 1 - (1 / 1 - 1); 8 / 2 - 1 - (1 / 1 - 1);
                48 / 8 - 1 - (1 / 1 - 1)] 3 2);
      try first [reflexivity | simpl; lia | reals].
    rewrite annual_factor_value. reflexivity.
  - repeat apply Forall_cons; try apply Forall_nil;
      first [left; reflexivity | right; f_equal; lra].
Qed.


(** * Further properties of the script *)

(** ** Reading the tables: [dropna] *)

Lemma filter_twice {A : Type} (f : A -> bool) (l : list A) :
  filter f (filter f l) = filter f l.
Proof.
  induction l as [| a l IH]; simpl; [reflexivity |].
  destruct (f a) eqn:E; simpl; rewrite ?E, IH; reflexivity.
Qed.

Lemma filter_all {A : Type} (f : A -> bool) (l : list A) :
  Forall (fun a => f a = true) l -> filter f l = l.
Proof.
  induction 1 as [| a l Ha _ IH]; simpl; [reflexivity |].
  rewrite Ha, IH. reflexivity.
Qed.

(** X1.  [dropna] keeps exactly the rows of the file none of whose
    fields is missing, for all assets at once: a missing quote of one
    asset takes the quotes of the other assets on that day with it.  The
    labels are kept, dropping twice is dropping once, and a table without
    missing value is left as it is. *)
Theorem dropna_keeps_complete_rows (csv : DataFrame) :
  (forall r, In r (rows (stock_data csv))
             <-> In r (rows csv) /\ complete r = true)
  /\ (forall d row, In (d, row) (rows csv) -> In NaN row ->
        ~ In (d, row) (rows (stock_data csv)))
  /\ columns (stock_data csv) = columns csv
  /\ stock_data (stock_data csv) = stock_data csv
  /\ (Forall (fun r => complete r = true) (rows csv) ->
      stock_data csv = csv).
Proof.
  unfold stock_data, dropna. cbn [rows columns].
  fold complete. change (fun r => forallb notna (snd r)) with complete.
  split; [| split; [| split; [| split]]].
  - intros r. apply filter_In.
  - intros d row _ Hnan Hin. apply filter_In in Hin as [_ Hc].
    unfold complete in Hc. rewrite forallb_forall in Hc.
    specialize (Hc NaN Hnan). discriminate.
  - reflexivity.
  - rewrite filter_twice. reflexivity.
  - intros H. rewrite (filter_all complete _ H). destruct csv; reflexivity.
Qed.

Lemma dropna_keeps_complete_rows_witness :
  ~ In (2%Z, [Num 2; NaN]) (rows (stock_data holed3))
  /\ stock_data (stock_data holed3) = stock_data holed3.
Proof.
  pose proof (dropna_keeps_complete_rows holed3) as H.
  split.
  - apply (proj1 (proj2 H) 2%Z [Num 2; NaN]).
    + right. left. reflexivity.
    + right. left. reflexivity.
  - apply (proj1 (proj2 (proj2 (proj2 H)))).
Defined.

(** ** Returns *)

Lemma pct_change_length (df : DataFrame) :
  length (rows (pct_change df)) = length (rows df).
Proof.
  unfold pct_change. cbn [rows].
  rewrite length_combine, pct_change_rows_length.
  unfold index. rewrite length_map. lia.
Qed.

(** X2.  The table of returns has the dates of the price table, in the
    same order, and its labels; the benchmark's return series has the
    dates of the benchmark table.  Nothing is dropped or reordered by
    taking returns. *)
Theorem returns_keep_shape :
  (forall sd,
     index (stock_returns sd) = index sd
     /\ columns (stock_returns sd) = columns sd
     /\ length (rows (stock_returns sd)) = length (rows sd)
     /\ forall j, length (column j (stock_returns sd))
                  = length (column j sd))
  /\ (forall bd s, sp_returns bd = Some s ->
        map fst s = index bd /\ length s = length (rows bd)).
Proof.
  split.
  - intros sd. unfold stock_returns. repeat split.
    + apply pct_change_index.
    + apply pct_change_length.
    + intros j. rewrite pct_change_column. apply pct_change_values_length.
  - intros bd s Hs. destruct (sp_returns_inv bd s Hs) as (k & _ & Hi & _).
    split; [exact Hi |].
    rewrite <- (length_map fst s), Hi. unfold index. apply length_map.
Qed.

Lemma returns_keep_shape_witness :
  map fst (pct_change_series (col_series 0 flat4)) = index flat4.
Proof.
  apply (proj2 returns_keep_shape flat4
           (pct_change_series (col_series 0 flat4)) eq_refl).
Defined.

(** X4.  Between two positive prices the return is never missing and
    never below minus one; it is not negative when the price did not
    fall, and not positive when the price did not rise. *)
Theorem positive_prices_bound_returns (sd : DataFrame) (j i : nat)
  (a b : R) :
  nth (S i) (column j sd) NaN = Num a ->
  nth i (column j sd) NaN = Num b ->
  0 < a -> 0 < b ->
  let ret := nth (S i) (column j (stock_returns sd)) NaN in
  ret <> NaN /\ ret <> NInf
  /\ forall r, ret = Num r ->
       -1 <= r /\ (b <= a -> 0 <= r) /\ (a <= b -> r <= 0).
Proof.
  intros Ha Hb Hpa Hpb ret. subst ret. unfold stock_returns.
  rewrite pct_change_column, pct_change_values_nth, Ha, Hb.
  rewrite pct_num by lra.
  split; [discriminate | split; [discriminate |]].
  intros r [= <-].
  assert (Hq : 0 < a / b) by (apply Rdiv_lt_0_compat; assumption).
  assert (Hab : a = a / b * b) by (field; lra).
  repeat split; try intros H; nra.
Qed.

Lemma positive_prices_bound_returns_witness :
  -1 <= 8 / 2 - 1 /\ (2 <= 8 -> 0 <= 8 / 2 - 1) /\ (8 <= 2 -> 8 / 2 - 1 <= 0).
Proof.
  apply (proj2 (proj2 (positive_prices_bound_returns rising4 0 1 8 2
                         eq_refl eq_refl ltac:(lra) ltac:(lra)))).
  unfold stock_returns.
  rewrite pct_change_column, (pct_change_values_nth _ 1).
  cbn -[pct IZR]. apply pct_num. lra.
Defined.

(** ** The benchmark column *)

Lemma position_none (name : string) (names : list string) :
  position name names = None <-> ~ In name names.
Proof.
  induction names as [| n rest IH]; simpl.
  - tauto.
  - destruct (String.eqb_spec n name) as [-> | Hne].
    + split; [discriminate | intros H; exfalso; apply H; now left].
    + destruct (position name rest) as [k |]; simpl.
      * split; [discriminate |].
        intros H. exfalso. apply H. right.
        destruct (in_dec string_dec name rest) as [Hin | Hout];
          [exact Hin |].
        apply IH in Hout. discriminate.
      * split; [| reflexivity].
        intros _ [Heq | Hin]; [contradiction |].
        now apply (proj1 IH).
Qed.

(** X5.  Line 108 fails with [KeyError] exactly when no column of the
    benchmark table is labelled "S&P 500"; the other labels, the dates
    and the values of the table play no part in that. *)
Theorem benchmark_column_is_required (bd : DataFrame) :
  sp_returns bd = None <-> ~ In "S&P 500"%string (columns bd).
Proof.
  rewrite <- position_none. unfold sp_returns, getitem.
  destruct (position "S&P 500" (columns bd)); cbn [option_map];
    split; intros H; (reflexivity || discriminate).
Qed.

Lemma benchmark_column_is_required_witness :
  sp_returns rising4 = None.
Proof.
  apply (proj2 (benchmark_column_is_required rising4)).
  cbn. intros [H | []]. discriminate.
Defined.

(** ** Alignment *)

Lemma map2_values_sub (a s : Series) :
  map snd (map2 (fun x b => (fst x, sub (snd x) (snd b))) a s)
  = map2 sub (map snd a) (map snd s).
Proof.
  revert s. induction a as [| x a IH]; intros [| b s]; simpl; auto.
  f_equal. apply IH.
Qed.

Lemma map2_dates_sub (a s : Series) :
  length a = length s ->
  map fst (map2 (fun x b => (fst x, sub (snd x) (snd b))) a s)
  = map fst a.
Proof.
  revert s. induction a as [| x a IH]; intros [| b s] H; simpl in *;
    try discriminate; [reflexivity |].
  f_equal. apply IH. lia.
Qed.

Lemma sub_aligned_same (a s : Series) :
  map fst a = map fst s ->
  sub_aligned a s = map2 (fun x b => (fst x, sub (snd x) (snd b))) a s.
Proof.
  intros H. unfold sub_aligned.
  rewrite (proj2 (same_index_eq _ _) H). reflexivity.
Qed.

Lemma excess_column_aligned (sr : DataFrame) (sp : Series) (j : nat) :
  index sr = map fst sp ->
  column j (excess_returns sr sp) = map2 sub (column j sr) (map snd sp).
Proof.
  intros Hidx.
  rewrite excess_column, sub_aligned_same
    by (rewrite <- (index_of_series j sr); exact Hidx).
  rewrite map2_values_sub, <- column_of_series. reflexivity.
Qed.

(** X6.  When the two return tables carry the same dates in the same
    order, the table of excess returns keeps those dates, and each of its
    cells is the asset's return of the row minus the benchmark's return
    of the row. *)
Theorem excess_of_aligned_tables (sr : DataFrame) (sp : Series) (j : nat) :
  index sr = map fst sp ->
  index (excess_returns sr sp) = index sr
  /\ column j (excess_returns sr sp) = map2 sub (column j sr) (map snd sp)
  /\ forall i, nth i (column j (excess_returns sr sp)) NaN
               = sub (nth i (column j sr) NaN) (nth i (map snd sp) NaN).
Proof.
  intros Hidx.
  pose proof (excess_column_aligned sr sp j Hidx) as Hcol.
  split; [| split; [exact Hcol |]].
  - rewrite (index_of_series 0 (excess_returns sr sp)).
    unfold excess_returns. rewrite col_series_sub, sub_aligned_same
      by (rewrite <- (index_of_series 0 sr); exact Hidx).
    rewrite map2_dates_sub, <- index_of_series; [reflexivity |].
    rewrite <- (length_map fst (col_series 0 sr)), <- index_of_series, Hidx.
    apply length_map.
  - intros i. rewrite Hcol. clear.
    generalize (column j sr) as l, (map snd sp) as m. intros l.
    revert i. induction l as [| x l IH]; intros i m.
    + destruct i; reflexivity.
    + destruct m as [| y m].
      * simpl. destruct i; rewrite sub_nan_r; reflexivity.
      * destruct i as [| i]; simpl; [reflexivity | apply IH].
Qed.

Lemma excess_of_aligned_tables_witness :
  index (excess_returns (stock_returns rising4) flat4_returns)
  = index (stock_returns rising4).
Proof.
  apply (proj1 (excess_of_aligned_tables (stock_returns rising4)
                  flat4_returns 0 eq_refl)).
Defined.

Lemma insert_date_perm (d : date) (l : list date) :
  Permutation (insert_date d l) (d :: l).
Proof.
  induction l as [| e l IH]; simpl; [reflexivity |].
  destruct (d <=? e)%Z; [reflexivity |].
  rewrite IH. apply perm_swap.
Qed.

Lemma sort_dates_perm (l : list date) : Permutation (sort_dates l) l.
Proof.
  induction l as [| d l IH]; simpl; [reflexivity |].
  rewrite insert_date_perm. now apply perm_skip.
Qed.

Lemma index_of_reindexed (sr : DataFrame) (sp : Series) :
  same_index (index sr) (map fst sp) = false ->
  index (excess_returns sr sp) = union_index (index sr) (map fst sp).
Proof.
  intros H. unfold excess_returns, sub_axis0, index at 1. rewrite H.
  cbn [rows]. rewrite map_map. cbn [fst]. apply map_id.
Qed.

(** X7.  When the dates of the two return tables differ (each table
    holding a date once), the table of excess returns is indexed by
    their union: every date of either table, once.  The cell of a date
    is the asset's return of that date minus the benchmark's, a side
    that lacks the date counting as missing; so a date that one table
    lacks holds no excess return. *)
Theorem excess_of_misaligned_tables (sr : DataFrame) (sp : Series)
  (j : nat) :
  NoDup (index sr) -> NoDup (map fst sp) ->
  index sr <> map fst sp ->
  let er := excess_returns sr sp in
  (forall d, In d (index er) <-> In d (index sr) \/ In d (map fst sp))
  /\ NoDup (index er)
  /\ (forall d x, In (d, x) (col_series j er) ->
        x = sub (or_nan (lookup d (col_series j sr)))
                (or_nan (lookup d sp)))
  /\ (forall d x, In (d, x) (col_series j er) ->
        ~ In d (index sr) \/ ~ In d (map fst sp) -> x = NaN).
Proof.
  intros _ _ Hne er.
  assert (Hf : same_index (index sr) (map fst sp) = false).
  { destruct (same_index (index sr) (map fst sp)) eqn:E; [| reflexivity].
    apply same_index_eq in E. contradiction. }
  assert (Hidx : index er = union_index (index sr) (map fst sp))
    by (apply index_of_reindexed, Hf).
  assert (Hperm : Permutation (index er)
                    (nodup Z.eq_dec (index sr ++ map fst sp))).
  { rewrite Hidx. apply sort_dates_perm. }
  split; [| split; [| split]].
  - intros d. rewrite <- in_app_iff. split; intros H.
    + apply (Permutation_in _ Hperm) in H. now apply nodup_In in H.
    + apply (Permutation_in _ (Permutation_sym Hperm)).
      now apply nodup_In.
  - apply (Permutation_NoDup (Permutation_sym Hperm)), NoDup_nodup.
  - intros d x Hin. subst er. unfold excess_returns in Hin.
    rewrite col_series_sub in Hin. unfold sub_aligned in Hin.
    rewrite <- (index_of_series j sr), Hf in Hin.
    apply in_map_iff in Hin as (e & [= -> <-] & _). reflexivity.
  - intros d x Hin Hout.
    destruct (not_nan_dec x) as [Hx | Hx]; [exact Hx | exfalso].
    subst er. unfold excess_returns in Hin. rewrite col_series_sub in Hin.
    destruct (sub_aligned_origin _ _ d x Hin Hx) as (xa & xs & Ha & Hs & _).
    apply in_dates in Ha. apply in_dates in Hs.
    rewrite <- (index_of_series j sr) in Ha. tauto.
Qed.

Lemma NoDup_78 : NoDup [7; 8]%Z.
Proof. repeat constructor; simpl; lia. Qed.

Lemma excess_of_misaligned_tables_witness :
  NoDup (index (excess_returns (stock_returns rising4) late_returns)).
Proof.
  assert (H : index (stock_returns rising4) <> map fst late_returns)
    by discriminate.
  apply (proj1 (proj2 (excess_of_misaligned_tables (stock_returns rising4)
                         late_returns 0 NoDup_1234 NoDup_78 H))).
Defined.

(** X8.  When no date of the price table is a date of the benchmark
    series (an empty table on either side included), no asset has an
    excess return on any date, and every daily and annualized ratio is
    [NaN]. *)
Theorem no_common_date_no_ratio (sd : DataFrame) (sp : Series) (j : nat) :
  (forall d, In d (index sd) -> ~ In d (map fst sp)) ->
  let er := excess_returns (stock_returns sd) sp in
  count (column j er) = 0%nat
  /\ value_at j (daily_sharpe_ratio er) = NaN
  /\ value_at j (annual_sharpe_ratio er) = NaN.
Proof.
  intros Hdis er.
  assert (Hc : count (column j er) = 0%nat).
  { subst er. rewrite excess_column. apply count_all_nan.
    intros d x Hin.
    destruct (not_nan_dec x) as [Hx | Hx]; [exact Hx | exfalso].
    destruct (sub_aligned_origin _ _ d x Hin Hx) as (xa & xs & Ha & Hs & _).
    apply in_dates in Ha. apply in_dates in Hs.
    rewrite <- (index_of_series j (stock_returns sd)) in Ha.
    unfold stock_returns in Ha. rewrite pct_change_index in Ha.
    exact (Hdis d Ha Hs). }
  split; [exact Hc |].
  assert (Hd : value_at j (daily_sharpe_ratio er) = NaN)
    by (apply daily_few; lia).
  split; [exact Hd | apply annual_of_nan, Hd].
Qed.

Lemma no_common_date_no_ratio_witness :
  value_at 0 (annual_sharpe_ratio
                (excess_returns (stock_returns rising4) late_returns))
  = NaN.
Proof.
  refine (proj2 (proj2 (no_common_date_no_ratio rising4 late_returns 0 _))).
  cbn. intros d H1 H2. lia.
Defined.

(** ** The sign of the ratio *)

Lemma fsqrt_range (v : f64) :
  fsqrt v = NaN \/ fsqrt v = PInf \/ exists t, fsqrt v = Num t /\ 0 <= t.
Proof.
  destruct v as [| | | a]; cbn [fsqrt]; auto.
  case_sign a; auto; right; right; eexists; split;
    try reflexivity; apply sqrt_pos.
Qed.

(** Closes a goal whose hypothesis gives a sign to a value that has
    none, or the wrong one. *)
Ltac no_sign H :=
  let r := fresh "r" in
  let Hr := fresh "Hr" in
  destruct H as [H | (r & H & Hr)];
  [discriminate H | first [discriminate H | injection H as <-; lra]].

Lemma div_positive (m s : f64) :
  (s = NaN \/ s = PInf \/ exists t, s = Num t /\ 0 <= t) ->
  is_positive (div m s) -> is_positive m.
Proof.
  intros Hs Hp. destruct m as [| | | a].
  - rewrite div_nan_l in Hp. no_sign Hp.
  - left. reflexivity.
  - exfalso. destruct Hs as [-> | [-> | (t & -> & Ht)]]; cbn [div] in Hp.
    + no_sign Hp.
    + no_sign Hp.
    + case_sign t; [lra | no_sign Hp | no_sign Hp].
  - destruct Hs as [-> | [-> | (t & -> & Ht)]]; cbn [div] in Hp.
    + no_sign Hp.
    + no_sign Hp.
    + case_sign t; [lra | |].
      * case_sign a; [no_sign Hp | no_sign Hp |].
        right. exists a. split; [reflexivity | assumption].
      * destruct Hp as [Hp | (r & Hp & Hr)]; [discriminate |].
        injection Hp as <-. right. exists a. split; [reflexivity |].
        assert (Ha : a = a / t * t) by (field; lra). nra.
Qed.

Lemma div_negative (m s : f64) :
  (s = NaN \/ s = PInf \/ exists t, s = Num t /\ 0 <= t) ->
  is_negative (div m s) -> is_negative m.
Proof.
  intros Hs Hp. destruct m as [| | | a].
  - rewrite div_nan_l in Hp. no_sign Hp.
  - exfalso. destruct Hs as [-> | [-> | (t & -> & Ht)]]; cbn [div] in Hp.
    + no_sign Hp.
    + no_sign Hp.
    + case_sign t; [lra | no_sign Hp | no_sign Hp].
  - left. reflexivity.
  - destruct Hs as [-> | [-> | (t & -> & Ht)]]; cbn [div] in Hp.
    + no_sign Hp.
    + no_sign Hp.
    + case_sign t; [lra | |].
      * case_sign a; [| no_sign Hp | no_sign Hp].
        right. exists a. split; [reflexivity | assumption].
      * destruct Hp as [Hp | (r & Hp & Hr)]; [discriminate |].
        injection Hp as <-. right. exists a. split; [reflexivity |].
        assert (Ha : a = a / t * t) by (field; lra). nra.
Qed.

Lemma annual_positive (x : f64) :
  is_positive (mul x annual_factor) -> is_positive x.
Proof.
  rewrite annual_factor_value. pose proof sqrt_252_pos as Hf.
  intros Hp. destruct x as [| | | a]; cbn [mul] in Hp.
  - no_sign Hp.
  - left. reflexivity.
  - unfold scale_inf in Hp. rewrite (Rsign_pos _ Hf) in Hp.
    cbn [inf] in Hp. no_sign Hp.
  - destruct Hp as [Hp | (r & Hp & Hr)]; [discriminate |].
    injection Hp as <-. right. exists a. split; [reflexivity | nra].
Qed.

Lemma annual_negative (x : f64) :
  is_negative (mul x annual_factor) -> is_negative x.
Proof.
  rewrite annual_factor_value. pose proof sqrt_252_pos as Hf.
  intros Hp. destruct x as [| | | a]; cbn [mul] in Hp.
  - no_sign Hp.
  - unfold scale_inf in Hp. rewrite (Rsign_pos _ Hf) in Hp.
    cbn [inf] in Hp. no_sign Hp.
  - left. reflexivity.
  - destruct Hp as [Hp | (r & Hp & Hr)]; [discriminate |].
    injection Hp as <-. right. exists a. split; [reflexivity | nra].
Qed.

(** X11.  The sign of a ratio is the sign of the mean excess return:
    an asset whose daily or annualized ratio is positive (plus infinity
    included) has a positive mean excess return, and one whose ratio is
    negative has a negative mean. *)
Theorem ratio_sign_is_mean_sign (er : DataFrame) (j : nat) :
  (j < length (columns er))%nat ->
  (is_positive (value_at j (daily_sharpe_ratio er)) ->
   is_positive (value_at j (avg_excess_return er)))
  /\ (is_negative (value_at j (daily_sharpe_ratio er)) ->
      is_negative (value_at j (avg_excess_return er)))
  /\ (is_positive (value_at j (annual_sharpe_ratio er)) ->
      is_positive (value_at j (avg_excess_return er)))
  /\ (is_negative (value_at j (annual_sharpe_ratio er)) ->
      is_negative (value_at j (avg_excess_return er))).
Proof.
  intros Hj. rewrite annual_at, daily_at by exact Hj.
  unfold avg_excess_return, frame_mean.
  rewrite reduce_columns_at by exact Hj.
  unfold sharpe_of, nanstd.
  pose proof (fsqrt_range (nanvar 1 (column j er))) as Hs.
  repeat split; intros H.
  - exact (div_positive _ _ Hs H).
  - exact (div_negative _ _ Hs H).
  - exact (div_positive _ _ Hs (annual_positive _ H)).
  - exact (div_negative _ _ Hs (annual_negative _ H)).
Qed.

Lemma ratio_sign_is_mean_sign_witness :
  is_positive (value_at 0 (avg_excess_return rising4_er)).
Proof.
  apply (proj1 (ratio_sign_is_mean_sign rising4_er 0 ltac:(simpl; lia))).
  right. exists (3 / 2). split; [exact rising4_er_daily | lra].
Defined.

(** ** Annualization and ranking *)

(** X13.  Annualization keeps what one reads off the daily ratios.  For
    two assets with finite daily and annualized ratios, the one with the
    smaller daily ratio does not get the larger annualized ratio, and a
    ratio keeps its sign, zero staying zero.  An infinite daily ratio
    stays the same infinity, and the annualized ratio is [NaN] exactly
    when the daily ratio is. *)
Theorem annualization_keeps_order (er : DataFrame) (j k : nat) :
  (forall a b a' b',
     value_at j (daily_sharpe_ratio er) = Num a ->
     value_at k (daily_sharpe_ratio er) = Num b ->
     value_at j (annual_sharpe_ratio er) = Num a' ->
     value_at k (annual_sharpe_ratio er) = Num b' ->
     (a <= b -> a' <= b')
     /\ (0 < a <-> 0 < a') /\ (a = 0 <-> a' = 0) /\ (a < 0 <-> a' < 0))
  /\ (value_at j (daily_sharpe_ratio er) = PInf ->
      value_at j (annual_sharpe_ratio er) = PInf)
  /\ (value_at j (daily_sharpe_ratio er) = NInf ->
      value_at j (annual_sharpe_ratio er) = NInf)
  /\ (value_at j (daily_sharpe_ratio er) = NaN
      <-> value_at j (annual_sharpe_ratio er) = NaN).
Proof.
  rewrite !annual_at, annual_factor_value.
  pose proof sqrt_252_pos as Hf.
  split; [| split; [| split]].
  - intros a b a' b' -> ->. rewrite !mul_num. intros [= <-] [= <-].
    generalize dependent (sqrt 252). intros f Hf.
    repeat split; intros H; nra.
  - intros ->. cbn [mul]. unfold scale_inf. rsign. reflexivity.
  - intros ->. cbn [mul]. unfold scale_inf. rsign. reflexivity.
  - destruct (value_at j (daily_sharpe_ratio er)) as [| | | a];
      cbn [mul]; unfold scale_inf; rsign; cbn [inf negb];
      split; intros H; try discriminate; reflexivity.
Qed.

Lemma two_assets_daily :
  value_at 0 (daily_sharpe_ratio two_assets_er) = Num (3 / 2)
  /\ value_at 1 (daily_sharpe_ratio two_assets_er) = Num (2 / 1).
Proof.
  split.
  - rewrite daily_at by (simpl; lia).
    apply (sharpe_of_value _ [1; 3; 5] 3 2);
      first [reflexivity | simpl; lia | reals].
  - rewrite daily_at by (simpl; lia).
    apply (sharpe_of_value _ [1; 2; 3] 2 1);
      first [reflexivity | simpl; lia | reals].
Qed.

Lemma annualization_keeps_order_witness :
  3 / 2 * sqrt 252 <= 2 / 1 * sqrt 252.
Proof.
  destruct two_assets_daily as [H0 H1].
  refine (proj1 (proj1 (annualization_keeps_order two_assets_er 0 1)
                   (3 / 2) (2 / 1) (3 / 2 * sqrt 252) (2 / 1 * sqrt 252)
                   H0 H1 _ _) _).
  - rewrite annual_at, H0, annual_factor_value. reflexivity.
  - rewrite annual_at, H1, annual_factor_value. reflexivity.
  - lra.
Defined.

(** ** How many returns a table gives *)

Lemma returns_after (q : R) (ps : list R) :
  q <> 0 -> Forall (fun p => p <> 0) ps ->
  exists rs,
    map2 pct (map Num ps) (shift (Num q) (map Num ps)) = map Num rs
    /\ length rs = length ps.
Proof.
  intros Hq Hps. revert q Hq.
  induction Hps as [| p ps Hp _ IH]; intros q Hq.
  - exists []. split; reflexivity.
  - destruct (IH p Hp) as (rs & Hrs & Hl).
    exists ((p / q - 1) :: rs). cbn [map]. rewrite shift_cons.
    cbn [map2 map length]. rewrite pct_num by exact Hq.
    fold (map Num ps). rewrite Hrs, Hl. split; reflexivity.
Qed.

Lemma returns_of_nonzero_prices (p : R) (ps : list R) :
  Forall (fun q => q <> 0) (p :: ps) ->
  exists rs,
    pct_change_values (map Num (p :: ps)) = NaN :: map Num rs
    /\ length rs = length ps.
Proof.
  intros H. inversion H as [| ? ? Hp Hps]; subst.
  destruct (returns_after p ps Hp Hps) as (rs & Hrs & Hl).
  exists rs. unfold pct_change_values. cbn [map]. rewrite shift_cons.
  cbn [map2]. rewrite pct_nan_r. fold (map Num ps). rewrite Hrs.
  split; [reflexivity | exact Hl].
Qed.

Lemma valid_nan (xs : list f64) : valid (NaN :: xs) = valid xs.
Proof. reflexivity. Qed.

(** X15.  A column of [n >= 1] finite prices none of which is zero
    gives exactly [n - 1] return observations: the first row is the
    only one whose return is missing.  So a table needs three rows for
    an asset to have the two observations a ratio takes. *)
Theorem nonzero_prices_give_all_returns (sd : DataFrame) (j : nat)
  (ps : list R) :
  column j sd = map Num ps ->
  Forall (fun p => p <> 0) ps ->
  ps <> [] ->
  count (column j (stock_returns sd)) = (length ps - 1)%nat
  /\ exists rest,
       column j (stock_returns sd) = NaN :: rest
       /\ Forall (fun x => x <> NaN) rest
       /\ length rest = (length ps - 1)%nat.
Proof.
  intros Hcol Hnz Hne. unfold stock_returns.
  rewrite pct_change_column, Hcol.
  destruct ps as [| p ps]; [contradiction |].
  destruct (returns_of_nonzero_prices p ps Hnz) as (rs & -> & Hl).
  split.
  - unfold count. fold (valid (NaN :: map Num rs)).
    rewrite valid_nan, valid_num, length_map, Hl. simpl. lia.
  - exists (map Num rs). split; [reflexivity | split].
    + apply Forall_forall. intros x Hx.
      apply in_map_iff in Hx as (r & <- & _). discriminate.
    + rewrite length_map, Hl. simpl. lia.
Qed.

Lemma nonzero_prices_give_all_returns_witness :
  count (column 0 (stock_returns rising4)) = 3%nat.
Proof.
  refine (proj1 (nonzero_prices_give_all_returns rising4 0 [1; 2; 8; 48]
                   eq_refl _ _)).
  - repeat apply Forall_cons; try apply Forall_nil; lra.
  - discriminate.
Defined.
